(** * Barcode sheet generator: the page-composition engine of [src/App.tsx]

    A shallow embedding of the code that lays repeated barcode images out on
    an A4 page at 300 DPI, and of the React state updaters around it.

    Modelling decisions, all taken from the source:
    - a JavaScript [number] that carries a length (pixels, inches, scale
      factors) is an exact rational [Q]; the concrete constants of the page
      are evaluated a second time in IEEE binary64 (module [Binary64]), the
      arithmetic the browser really uses;
    - the repeat counts are integers [Z]: every writer of [horizontalCount]
      and [verticalCount] stores [5], [10] or [Math.max(0, parseInt(..) || 0)];
    - [naturalWidth] and [naturalHeight] are [unsigned long], hence [N];
    - strings are [string]; a character stands for one code unit below 256;
    - a canvas is its backing-store size, the drawing state of its 2D
      context (with the save/restore stack) and the chronological list of
      what was painted, each entry with the drawing state it was painted in;
    - [drawOnCanvas] mutates the canvas and may throw: a state-and-exception
      monad [M] over [Canvas]; what was painted before a throw stays painted;
    - the image loader and the network are parameters of the functions that
      await them. *)

From Stdlib Require Import ZArith NArith QArith Qround Qminmax.
From Stdlib Require Import String Ascii List Bool Lia Lqa.
From Stdlib Require Import Floats.PrimFloat.
Import ListNotations.

Local Open Scope string_scope.
Local Open Scope Z_scope.
Local Open Scope Q_scope.

(** ** Numbers *)

Definition Qgtb (a b : Q) : bool := negb (Qle_bool a b).

(** ** Strings: the [String.prototype] methods the code calls *)

Module JsString.

(** [!!s]: a string is truthy when it is not empty. *)
Definition truthy (s : string) : bool :=
  match s with EmptyString => false | _ => true end.

Definition startsWith (s p : string) : bool := String.prefix p s.

Definition endsWith (s suffix : string) : bool :=
  let n := String.length s in
  let k := String.length suffix in
  (k <=? n)%nat && String.eqb (substring (n - k) k s) suffix.

(** Upper-case letters below 256: A-Z, and the Latin-1 letters 192-222
    without the multiplication sign 215. *)
Definition lowerChar (c : ascii) : ascii :=
  let n := nat_of_ascii c in
  if ((65 <=? n) && (n <=? 90)
      || (192 <=? n) && (n <=? 222) && negb (n =? 215))%nat
  then ascii_of_nat (n + 32) else c.

Fixpoint toLowerCase (s : string) : string :=
  match s with
  | EmptyString => EmptyString
  | String c s' => String (lowerChar c) (toLowerCase s')
  end.

(** White space and line terminators below 256: TAB, LF, VT, FF, CR, SP
    and NBSP. *)
Definition isWhiteSpace (c : ascii) : bool :=
  let n := nat_of_ascii c in
  ((9 <=? n) && (n <=? 13) || (n =? 32) || (n =? 160))%nat.

Fixpoint trimStart (s : string) : string :=
  match s with
  | EmptyString => EmptyString
  | String c s' => if isWhiteSpace c then trimStart s' else s
  end.

(** [trimEnd] keeps a character when it is not white space or when
    something is left after it. *)
Fixpoint trimEnd (s : string) : string :=
  match s with
  | EmptyString => EmptyString
  | String c s' =>
      match trimEnd s' with
      | EmptyString => if isWhiteSpace c then EmptyString else String c EmptyString
      | t => String c t
      end
  end.

Definition trim (s : string) : string := trimEnd (trimStart s).

(** [s.substring(0, n)] *)
Definition substring0 (n : nat) (s : string) : string := substring 0 n s.

End JsString.

(** ** Constants (App.tsx, lines 4-9) *)

Definition A4_WIDTH_INCHES : Q := 827 # 100.
Definition A4_HEIGHT_INCHES : Q := 1169 # 100.
Definition DPI : Q := 300.
Definition A4_WIDTH_PX : Q := A4_WIDTH_INCHES * DPI.
Definition A4_HEIGHT_PX : Q := A4_HEIGHT_INCHES * DPI.

(** The same constant expressions in binary64. *)
Module Binary64.
Local Open Scope float_scope.
#[local] Set Warnings "-inexact-float".
Definition A4_WIDTH_INCHES : float := 8.27.
Definition A4_HEIGHT_INCHES : float := 11.69.
Definition DPI : float := 300.
Definition A4_WIDTH_PX : float := A4_WIDTH_INCHES * DPI.
Definition A4_HEIGHT_PX : float := A4_HEIGHT_INCHES * DPI.
(** [DPI / assumedBrowserDpi] of line 154. *)
Definition scaleFactor : float := DPI / 96.
End Binary64.

(** ** Data model (App.tsx, lines 12-23) *)

Inductive ValidationStatus := idle | checking | valid | invalid.

Definition ValidationStatus_eqb (a b : ValidationStatus) : bool :=
  match a, b with
  | idle, idle | checking, checking | valid, valid | invalid, invalid => true
  | _, _ => false
  end.

Record BarcodeGroup := mkGroup {
  id : Z;
  inputValue : string;
  resolvedUrl : string;
  validationStatus : ValidationStatus;
  title : string;
  horizontalCount : Z;
  verticalCount : Z;
  marginTop : Q
}.

(** What the image loader of lines 142-148 resolves with: the decoded
    image's intrinsic size. *)
Record HTMLImageElement := mkImage {
  src : string;
  naturalWidth : N;
  naturalHeight : N
}.

(** ** The canvas and its 2D context *)

Record Font := mkFont {
  fontWeight : string;
  fontSize : Q;
  fontFamily : string
}.

(** The part of the context's drawing state the code touches. Only scalings
    are ever applied, so the current transform is a pair of scale factors. *)
Record DrawingState := mkState {
  scaleX : Q;
  scaleY : Q;
  fillStyle : string;
  font : Font;
  textAlign : string
}.

Definition defaultState : DrawingState :=
  mkState 1 1 "#000000" (mkFont "normal" 10 "sans-serif") "start".

(** One painting call, with the drawing state it ran in; coordinates are the
    call's arguments, in user space. *)
Inductive Painted :=
| FillRect (st : DrawingState) (x y w h : Q)
| FillText (st : DrawingState) (text : string) (x y : Q)
| DrawImage (st : DrawingState) (image : HTMLImageElement) (dx dy dw dh : Q).

Record Canvas := mkCanvas {
  width : Z;
  height : Z;
  state : DrawingState;
  saved : list DrawingState;
  painted : list Painted
}.

(** A canvas element as [document.createElement('canvas')] returns it. *)
Definition freshCanvas : Canvas := mkCanvas 300 150 defaultState [] [].

(** Conversion of a number to the [unsigned long] of [canvas.width]:
    truncation, modulo 2^32. *)
Definition toUnsignedLong (v : Q) : Z :=
  (Z.quot (Qnum v) (Zpos (Qden v)) mod 2 ^ 32)%Z.

(** ** Mutation and exceptions: [inl msg] is a thrown [Error(msg)] *)

Definition M (A : Type) : Type := Canvas -> Canvas * (string + A).

Definition ret {A : Type} (a : A) : M A := fun c => (c, inr a).

Definition throw {A : Type} (msg : string) : M A := fun c => (c, inl msg).

Definition bind {A B : Type} (m : M A) (k : A -> M B) : M B :=
  fun c =>
    match m c with
    | (c', inl msg) => (c', inl msg)
    | (c', inr a) => k a c'
    end.

Definition modify (f : Canvas -> Canvas) : M unit := fun c => (f c, inr tt).

Declare Scope M_scope.
Delimit Scope M_scope with M.
Notation "x <- m ;; k" := (bind m (fun x => k))
  (at level 61, m at next level, right associativity) : M_scope.
Notation "m ;; k" := (bind m (fun _ => k))
  (at level 61, right associativity) : M_scope.
Local Open Scope M_scope.

Definition withState (f : DrawingState -> DrawingState) (c : Canvas) : Canvas :=
  mkCanvas (width c) (height c) (f (state c)) (saved c) (painted c).

Definition paint (p : DrawingState -> Painted) (c : Canvas) : Canvas :=
  mkCanvas (width c) (height c) (state c) (saved c) (painted c ++ [p (state c)]).

(** Assigning [canvas.width] or [canvas.height] resizes the backing store,
    which clears it and resets the context to its default state. *)
Definition set_width (v : Q) : M unit :=
  modify (fun c => mkCanvas (toUnsignedLong v) (height c) defaultState [] []).

Definition set_height (v : Q) : M unit :=
  modify (fun c => mkCanvas (width c) (toUnsignedLong v) defaultState [] []).

Definition set_fillStyle (s : string) : M unit :=
  modify (withState (fun st =>
    mkState (scaleX st) (scaleY st) s (font st) (textAlign st))).

Definition set_font (f : Font) : M unit :=
  modify (withState (fun st =>
    mkState (scaleX st) (scaleY st) (fillStyle st) f (textAlign st))).

Definition set_textAlign (a : string) : M unit :=
  modify (withState (fun st =>
    mkState (scaleX st) (scaleY st) (fillStyle st) (font st) a)).

Definition ctx_scale (x y : Q) : M unit :=
  modify (withState (fun st =>
    mkState (scaleX st * x) (scaleY st * y) (fillStyle st) (font st) (textAlign st))).

Definition ctx_save : M unit :=
  modify (fun c =>
    mkCanvas (width c) (height c) (state c) (state c :: saved c) (painted c)).

Definition ctx_restore : M unit :=
  modify (fun c =>
    match saved c with
    | [] => c
    | st :: rest => mkCanvas (width c) (height c) st rest (painted c)
    end).

Definition fillRect (x y w h : Q) : M unit :=
  modify (paint (fun st => FillRect st x y w h)).

Definition fillText (text : string) (x y : Q) : M unit :=
  modify (paint (fun st => FillText st text x y)).

Definition drawImage (image : HTMLImageElement) (dx dy dw dh : Q) : M unit :=
  modify (paint (fun st => DrawImage st image dx dy dw dh)).

(** [for (let i = 0; i < count; i++) body]: with an integer [count] the body
    runs for [i = 0 .. count - 1], and not at all when [count <= 0]. *)
Fixpoint forFrom (n : nat) (i : Z) (body : Z -> M unit) : M unit :=
  match n with
  | O => ret tt
  | S n' => body i ;; forFrom n' (i + 1)%Z body
  end.

Definition forUpTo (count : Z) (body : Z -> M unit) : M unit :=
  forFrom (Z.to_nat count) 0%Z body.

(** ** What [drawOnCanvas] reads from the browser *)

Record Env := mkEnv {
  (** the layout box of the preview canvas element, in CSS pixels *)
  offsetWidth : Z;
  offsetHeight : Z;
  (** [window.devicePixelRatio] *)
  devicePixelRatio : Q;
  (** the outcome of loading an URL into an [Image]: its intrinsic size when
      [onload] fires, [None] when [onerror] fires *)
  loadImage : string -> option (N * N)
}.

(** ** The layout engine (App.tsx, [drawOnCanvas], lines 101-203) *)

(** Line 121: the groups that contribute to the page. *)
Definition isValidGroup (g : BarcodeGroup) : bool :=
  JsString.truthy (resolvedUrl g)
  && ValidationStatus_eqb (validationStatus g) valid
  && (0 <? horizontalCount g)%Z
  && (0 <? verticalCount g)%Z.

(** Lines 130-140: the title band. Returns the advanced [currentYOffset]. *)
Definition drawTitle (group : BarcodeGroup) (currentYOffset : Q) : M Q :=
  if JsString.truthy (title group)
     && negb (String.eqb (JsString.trim (title group)) "")
  then
    let fontSizePt : Q := 16 in
    let fontSizePx : Q := (fontSizePt / 72) * DPI in
    set_font (mkFont "bold" fontSizePx "sans-serif") ;;
    set_fillStyle "black" ;;
    set_textAlign "center" ;;
    let textX := A4_WIDTH_PX / 2 in
    let textY := currentYOffset + fontSizePx in
    fillText (title group) textX textY ;;
    ret (currentYOffset + (fontSizePx + (fontSizePx * 0.5)))
  else ret currentYOffset.

(** Lines 142-148: the awaited image load. *)
Definition awaitImage (env : Env) (group : BarcodeGroup) : M HTMLImageElement :=
  match loadImage env (resolvedUrl group) with
  | Some (w, h) => ret (mkImage (resolvedUrl group) w h)
  | None =>
      throw ("Failed to load: "
             ++ JsString.substring0 50 (resolvedUrl group) ++ "...")
  end.

(** Lines 150-157: the size of one cell, with the correction for vector
    images. *)
Definition barcodeSize (group : BarcodeGroup) (img : HTMLImageElement) : Q * Q :=
  let barcodeWidth := inject_Z (Z.of_N (naturalWidth img)) in
  let barcodeHeight := inject_Z (Z.of_N (naturalHeight img)) in
  if JsString.endsWith (JsString.toLowerCase (resolvedUrl group)) ".svg"
  then
    let assumedBrowserDpi : Q := 96 in
    let scaleFactor := DPI / assumedBrowserDpi in
    (barcodeWidth * scaleFactor, barcodeHeight * scaleFactor)
  else (barcodeWidth, barcodeHeight).

(** Lines 173-179: the grid of copies. *)
Definition drawGrid (group : BarcodeGroup) (img : HTMLImageElement)
    (startX startY barcodeWidth barcodeHeight : Q) : M unit :=
  forUpTo (verticalCount group) (fun y =>
    forUpTo (horizontalCount group) (fun x =>
      let drawX := startX + inject_Z x * barcodeWidth in
      let drawY := startY + inject_Z y * barcodeHeight in
      drawImage img drawX drawY barcodeWidth barcodeHeight)).

(** Lines 128-181: the body of the loop over [validGroups]. *)
Definition drawGroup (env : Env) (group : BarcodeGroup) (currentYOffset : Q) : M Q :=
  let currentYOffset := currentYOffset + marginTop group * DPI in
  currentYOffset <- drawTitle group currentYOffset ;;
  img <- awaitImage env group ;;
  let (barcodeWidth, barcodeHeight) := barcodeSize group img in
  if Qeq_bool barcodeWidth 0 || Qeq_bool barcodeHeight 0 then
    throw ("Image from " ++ JsString.substring0 50 (resolvedUrl group)
           ++ "... has zero dimensions.")
  else
    let groupGridWidth := inject_Z (horizontalCount group) * barcodeWidth in
    let groupGridHeight := inject_Z (verticalCount group) * barcodeHeight in
    if Qgtb (currentYOffset + groupGridHeight) A4_HEIGHT_PX then
      throw "Content overflows A4 page. Reduce counts or adjust margins."
    else
      let startX := (A4_WIDTH_PX - groupGridWidth) / 2 in
      let startY := currentYOffset in
      drawGrid group img startX startY barcodeWidth barcodeHeight ;;
      ret (currentYOffset + groupGridHeight).

(** Lines 127-182: [for (const group of validGroups)]. *)
Fixpoint drawGroups (env : Env) (validGroups : list BarcodeGroup)
    (currentYOffset : Q) : M Q :=
  match validGroups with
  | [] => ret currentYOffset
  | group :: rest =>
      currentYOffset <- drawGroup env group currentYOffset ;;
      drawGroups env rest currentYOffset
  end.

(** Lines 124-183. *)
Definition drawContent (env : Env) (validGroups : list BarcodeGroup) : M unit :=
  drawGroups env validGroups 0 ;; ret tt.

(** Lines 105-119: sizing the canvas for the mode and filling it white. *)
Definition prepareCanvas (env : Env) (isPreview : bool)
    (logicalCanvasWidth logicalCanvasHeight : Q) : M unit :=
  (if isPreview then
     let dpr :=
       if Qeq_bool (devicePixelRatio env) 0 then 1 else devicePixelRatio env in
     set_width (logicalCanvasWidth * dpr) ;;
     set_height (logicalCanvasHeight * dpr) ;;
     ctx_scale dpr dpr
   else
     set_width A4_WIDTH_PX ;;
     set_height A4_HEIGHT_PX) ;;
  set_fillStyle "white" ;;
  fillRect 0 0 logicalCanvasWidth logicalCanvasHeight.

(** Lines 186-194: the body of the [try] block. *)
Definition tryBlock (env : Env) (isPreview : bool)
    (logicalCanvasWidth logicalCanvasHeight : Q)
    (validGroups : list BarcodeGroup) : M unit :=
  if isPreview then
    let scaleToFit :=
      Qmin (logicalCanvasWidth / A4_WIDTH_PX) (logicalCanvasHeight / A4_HEIGHT_PX) in
    ctx_save ;;
    ctx_scale scaleToFit scaleToFit ;;
    drawContent env validGroups ;;
    ctx_restore
  else drawContent env validGroups.

(** Lines 200-201: the tint painted by the [catch] block. *)
Definition paintErrorTint (logicalCanvasWidth logicalCanvasHeight : Q) : M unit :=
  set_fillStyle "rgba(255, 0, 0, 0.1)" ;;
  fillRect 0 0 logicalCanvasWidth logicalCanvasHeight.

(** [drawOnCanvas(canvas, groups, isPreview)]; [error] is the component's
    [error] state before the call, the result carries it after the call
    ([setError]). The canvas is taken to have a 2D context (line 103 returns
    at once when it has none). *)
Definition drawOnCanvas (env : Env) (canvas : Canvas)
    (groups : list BarcodeGroup) (isPreview : bool) (error : option string)
    : Canvas * option string :=
  let logicalCanvasWidth :=
    if isPreview then inject_Z (offsetWidth env) else A4_WIDTH_PX in
  let logicalCanvasHeight :=
    if isPreview then inject_Z (offsetHeight env) else A4_HEIGHT_PX in
  let canvas :=
    fst (prepareCanvas env isPreview logicalCanvasWidth logicalCanvasHeight canvas) in
  let validGroups := filter isValidGroup groups in
  match validGroups with
  | [] => (canvas, error)
  | _ =>
      match tryBlock env isPreview logicalCanvasWidth logicalCanvasHeight
                     validGroups canvas with
      | (canvas, inr _) => (canvas, None)
      | (canvas, inl errorMessage) =>
          (fst (paintErrorTint logicalCanvasWidth logicalCanvasHeight canvas),
           Some errorMessage)
      end
  end.

(** ** Export (App.tsx, lines 245-267) *)

(** Line 267. *)
Definition isDownloadDisabled (isLoading : bool)
    (barcodeGroups : list BarcodeGroup) : bool :=
  isLoading
  || (List.length barcodeGroups =? 0)%nat
  || existsb (fun g =>
        negb (ValidationStatus_eqb (validationStatus g) valid)
        || negb (JsString.truthy (resolvedUrl g))
        || (horizontalCount g <=? 0)%Z
        || (verticalCount g <=? 0)%Z) barcodeGroups.

(** Lines 247-249: [setError(null)], then the layout engine in export mode
    on a canvas created for the occasion. The file offered for download is
    the bitmap of the canvas this returns. *)
Definition handleGenerateAndDownload (env : Env)
    (barcodeGroups : list BarcodeGroup) : Canvas * option string :=
  drawOnCanvas env freshCanvas barcodeGroups false None.

(** Line 346: the button carries [disabled={isDownloadDisabled}], and a
    disabled button does not run its [onClick]; [None] is "nothing happens". *)
Definition clickDownload (env : Env) (isLoading : bool)
    (barcodeGroups : list BarcodeGroup) : option (Canvas * option string) :=
  if isDownloadDisabled isLoading barcodeGroups then None
  else Some (handleGenerateAndDownload env barcodeGroups).

(** ** Editing and validating groups (App.tsx, lines 42-98 and 223-243) *)

(** The (field, value) pairs [handleGroupChange] acts on, one per call site
    (lines 299, 307, 315, 325, 333); any other pair falls through to
    [return group] and is [OtherField]. *)
Inductive Edit :=
| SetInputValue (value : string)
| SetTitle (value : string)
| SetHorizontalCount (value : Z)
| SetVerticalCount (value : Z)
| SetMarginTop (value : Q)
| OtherField.

Definition updateGroup (g : BarcodeGroup) (e : Edit) : BarcodeGroup :=
  match e with
  | SetInputValue value =>
      mkGroup (id g) value "" idle (title g)
              (horizontalCount g) (verticalCount g) (marginTop g)
  | SetTitle value =>
      mkGroup (id g) (inputValue g) (resolvedUrl g) (validationStatus g) value
              (horizontalCount g) (verticalCount g) (marginTop g)
  | SetHorizontalCount value =>
      mkGroup (id g) (inputValue g) (resolvedUrl g) (validationStatus g) (title g)
              value (verticalCount g) (marginTop g)
  | SetVerticalCount value =>
      mkGroup (id g) (inputValue g) (resolvedUrl g) (validationStatus g) (title g)
              (horizontalCount g) value (marginTop g)
  | SetMarginTop value =>
      mkGroup (id g) (inputValue g) (resolvedUrl g) (validationStatus g) (title g)
              (horizontalCount g) (verticalCount g) value
  | OtherField => g
  end.

(** Lines 223-243, as the updater it passes to [setBarcodeGroups]. *)
Definition handleGroupChange (idToUpdate : Z) (e : Edit)
    (prev : list BarcodeGroup) : list BarcodeGroup :=
  map (fun group =>
         if (id group =? idToUpdate)%Z then updateGroup group e else group) prev.

(** Line 216. [now] is [Date.now()]. *)
Definition handleAddGroup (now : Z) (prev : list BarcodeGroup) : list BarcodeGroup :=
  prev ++ [mkGroup now "" "" idle "" 5 10 0.1].

(** Line 220. *)
Definition handleRemoveGroup (idToRemove : Z) (prev : list BarcodeGroup)
    : list BarcodeGroup :=
  filter (fun b => negb (id b =? idToRemove)%Z) prev.

(** Lines 26-37: the state the component starts in. *)
Definition initialGroups (now : Z) : list BarcodeGroup :=
  [mkGroup now "1" "" idle "" 5 10 0].

(** What the user can do to the groups (lines 286-343). A number field
    hands over what [parseFloat] or [parseInt] made of its text, [None]
    standing for [NaN]; the handlers store [Math.max(0, parsed || 0)]. *)
Inductive UiAction :=
| TypeIdentifier (id0 : Z) (text : string)
| TypeTitle (id0 : Z) (text : string)
| TypeMarginTop (id0 : Z) (parsed : option Q)
| TypeHorizontalCount (id0 : Z) (parsed : option Z)
| TypeVerticalCount (id0 : Z) (parsed : option Z)
| ClickAdd (now : Z)
| ClickRemove (id0 : Z).

Definition act (a : UiAction) (prev : list BarcodeGroup) : list BarcodeGroup :=
  match a with
  | TypeIdentifier id0 text => handleGroupChange id0 (SetInputValue text) prev
  | TypeTitle id0 text => handleGroupChange id0 (SetTitle text) prev
  | TypeMarginTop id0 parsed =>
      handleGroupChange id0
        (SetMarginTop (Qmax 0 (match parsed with Some q => q | None => 0 end))) prev
  | TypeHorizontalCount id0 parsed =>
      handleGroupChange id0
        (SetHorizontalCount (Z.max 0 (match parsed with Some n => n | None => 0 end)))
        prev
  | TypeVerticalCount id0 parsed =>
      handleGroupChange id0
        (SetVerticalCount (Z.max 0 (match parsed with Some n => n | None => 0 end)))
        prev
  | ClickAdd now => handleAddGroup now prev
  | ClickRemove id0 => handleRemoveGroup id0 prev
  end.

(** [{ ...g, validationStatus: status, resolvedUrl: url }] *)
Definition withValidation (g : BarcodeGroup) (status : ValidationStatus)
    (url : string) : BarcodeGroup :=
  mkGroup (id g) (inputValue g) url status (title g)
          (horizontalCount g) (verticalCount g) (marginTop g).

(** What the lookup endpoint answers to [/api/get-barcode-url?number=..]. *)
Inductive LookupResponse :=
| LookupNotOk (error : option string)
| LookupOk (imageUrl : option string).

(** The network as [validateBarcodeUrl] sees it; [None] is a rejected
    [fetch]. [headOk] is [response.ok] of the HEAD request. *)
Record Network := mkNetwork {
  lookup : string -> option LookupResponse;
  headOk : string -> option bool
}.

(** Lines 49-77: the awaited part of [validateBarcodeUrl], up to the write.
    [inr url] is the success branch of line 74, [inl message] what the
    [catch] of line 78 receives. *)
Definition resolveUrl (net : Network) (value : string) : string + string :=
  let isFullUrl :=
    JsString.startsWith value "http://" || JsString.startsWith value "https://" in
  let urlToCheck : string + string :=
    if isFullUrl then inr value
    else
      match lookup net value with
      | None => inl "Failed to fetch"
      | Some (LookupNotOk error) =>
          inl (match error with
               | Some message =>
                   if JsString.truthy message then message
                   else "Barcode '" ++ value ++ "' not found."
               | None => "Barcode '" ++ value ++ "' not found."
               end)
      | Some (LookupOk (Some imageUrl)) =>
          if JsString.truthy imageUrl then inr imageUrl
          else inl "Invalid response from lookup service."
      | Some (LookupOk None) => inl "Invalid response from lookup service."
      end in
  match urlToCheck with
  | inl message => inl message
  | inr url =>
      match headOk net url with
      | Some true => inr url
      | Some false => inl "Image URL is not reachable or invalid."
      | None => inl "Failed to fetch"
      end
  end.

(** Lines 43-47: what [validateBarcodeUrl(id, value)] does before its first
    [await]. The second component tells whether it goes on to the network. *)
Definition validateStart (id0 : Z) (value : string)
    (prev : list BarcodeGroup) : list BarcodeGroup * bool :=
  if negb (JsString.truthy value) then
    (map (fun g => if (id g =? id0)%Z then withValidation g idle "" else g) prev,
     false)
  else
    (map (fun g =>
            if (id g =? id0)%Z
            then withValidation g checking (resolvedUrl g) else g) prev,
     true).

(** Lines 74 and 81: the write once the fetches have settled. It is keyed by
    the [id] the call was started with, and by nothing else. *)
Definition validateFinish (id0 : Z) (outcome : string + string)
    (prev : list BarcodeGroup) : list BarcodeGroup :=
  match outcome with
  | inr urlToCheck =>
      map (fun g =>
             if (id g =? id0)%Z then withValidation g valid urlToCheck else g) prev
  | inl _ =>
      map (fun g => if (id g =? id0)%Z then withValidation g invalid "" else g) prev
  end.

(** Lines 42-83 when nothing else happens between the call and the
    settling of its fetches. *)
Definition validateBarcodeUrl (net : Network) (id0 : Z) (value : string)
    (prev : list BarcodeGroup) : list BarcodeGroup :=
  let (groups, suspended) := validateStart id0 value prev in
  if suspended then validateFinish id0 (resolveUrl net value) groups
  else groups.

(** The component's state between events: the groups, and the calls of
    [validateBarcodeUrl] that are suspended at an [await], oldest first,
    each with the [id] and [value] it captured. *)
Record AppState := mkApp {
  barcodeGroups : list BarcodeGroup;
  inFlight : list (Z * string)
}.

(** Lines 88-92: the body of the 500 ms timer, over the snapshot of the
    groups the effect closed over. *)
Fixpoint startValidations (snapshot : list BarcodeGroup) (s : AppState) : AppState :=
  match snapshot with
  | [] => s
  | group :: rest =>
      if JsString.truthy (inputValue group)
         && ValidationStatus_eqb (validationStatus group) idle
      then
        let (groups, suspended) :=
          validateStart (id group) (inputValue group) (barcodeGroups s) in
        startValidations rest
          (mkApp groups
                 (if suspended
                  then inFlight s ++ [(id group, inputValue group)]
                  else inFlight s))
      else startValidations rest s
  end.

Fixpoint removeNth {A : Type} (k : nat) (l : list A) : list A :=
  match k, l with
  | _, [] => []
  | O, _ :: rest => rest
  | S k', a :: rest => a :: removeNth k' rest
  end.

(** What can happen to the component, one event at a time (there is one
    thread; events interleave only at the [await]s). *)
Inductive Event :=
| UserEdit (idToUpdate : Z) (e : Edit)
| ValidationTimer
| Settles (k : nat).

Definition step (net : Network) (s : AppState) (ev : Event) : AppState :=
  match ev with
  | UserEdit idToUpdate e =>
      mkApp (handleGroupChange idToUpdate e (barcodeGroups s)) (inFlight s)
  | ValidationTimer => startValidations (barcodeGroups s) s
  | Settles k =>
      match nth_error (inFlight s) k with
      | Some (id0, value) =>
          mkApp (validateFinish id0 (resolveUrl net value) (barcodeGroups s))
                (removeNth k (inFlight s))
      | None => s
      end
  end.

Definition run (net : Network) (s : AppState) (events : list Event) : AppState :=
  fold_left (step net) events s.

(** ** The rest of the export (App.tsx, lines 251-264) *)

(** What a click on the enabled button leaves behind: the file offered for
    download (its name and the bitmap it encodes), the [error] state and the
    [isLoading] state. *)
Record ExportResult := mkExport {
  downloaded : option (string * Canvas);
  errorAfter : option string;
  isLoadingAfter : bool
}.

(** Lines 245-265 as a whole. [blobOk] tells whether [toBlob] hands a blob
    to its callback for the canvas it is given; the callback runs whatever
    [drawOnCanvas] stored in [error]. *)
Definition exportSheet (env : Env) (blobOk : Canvas -> bool)
    (barcodeGroups : list BarcodeGroup) : ExportResult :=
  let (offscreenCanvas, error) := handleGenerateAndDownload env barcodeGroups in
  if blobOk offscreenCanvas then
    mkExport (Some ("barcode-sheet-A4-300dpi.png", offscreenCanvas)) error false
  else
    mkExport None
      (Some "Failed to create image blob. The canvas may be empty or too large.")
      false.

(** ** The lookup endpoint (api/get-barcode-url.ts) *)

Module Api.











End Api.



(** * Specification vocabulary

    Definitions used to state the properties; each is tied to the code above
    by a lemma of the next part. *)

(** [c], with [l] painted after what it already shows. *)
Definition appendPainted (c : Canvas) (l : list Painted) : Canvas :=
  mkCanvas (width c) (height c) (state c) (saved c) (painted c ++ l).

(** The cell of column [col] and row [row] of a grid whose top-left corner
    is [(startX, startY)]. *)
Definition cellAt (st : DrawingState) (img : HTMLImageElement)
    (startX startY cellWidth cellHeight : Q) (col row : nat) : Painted :=
  DrawImage st img
    (startX + inject_Z (Z.of_nat col) * cellWidth)
    (startY + inject_Z (Z.of_nat row) * cellHeight)
    cellWidth cellHeight.

(** The cells of a [cols] by [rows] grid, row after row. *)
Definition gridCells (st : DrawingState) (img : HTMLImageElement)
    (startX startY cellWidth cellHeight : Q) (cols rows : nat) : list Painted :=
  flat_map (fun row =>
    map (fun col => cellAt st img startX startY cellWidth cellHeight col row)
        (seq 0 cols)) (seq 0 rows).

(** A group has a title band when line 130 lets it through. *)
Definition hasTitle (g : BarcodeGroup) : bool :=
  JsString.truthy (title g)
  && negb (String.eqb (JsString.trim (title g)) "").

(** 16pt at 300 DPI, in pixels. *)
Definition titleFontPx : Q := (16 / 72) * DPI.

Definition titleState (st : DrawingState) : DrawingState :=
  mkState (scaleX st) (scaleY st) "black"
          (mkFont "bold" titleFontPx "sans-serif") "center".

(** The canvas and the cursor once the title band of [g] is through, from
    cursor [y] (margin included). *)
Definition canvasAfterTitle (g : BarcodeGroup) (y : Q) (c : Canvas) : Canvas :=
  if hasTitle g then
    mkCanvas (width c) (height c) (titleState (state c)) (saved c)
      (painted c ++
       [FillText (titleState (state c)) (title g)
                 (A4_WIDTH_PX / 2) (y + titleFontPx)])
  else c.

Definition cursorAfterTitle (g : BarcodeGroup) (y : Q) : Q :=
  if hasTitle g then y + (titleFontPx + titleFontPx * 0.5) else y.

(** The rectangle of the backing store a painted rectangle or image covers:
    user-space coordinates through the transform it was painted in. *)
Definition deviceRect (p : Painted) : option (Q * Q * Q * Q) :=
  match p with
  | FillRect st x y w h =>
      Some (x * scaleX st, y * scaleY st, (x + w) * scaleX st, (y + h) * scaleY st)
  | DrawImage st _ x y w h =>
      Some (x * scaleX st, y * scaleY st, (x + w) * scaleX st, (y + h) * scaleY st)
  | FillText _ _ _ _ => None
  end.

(** [p] covers the whole backing store of [c]. *)
Definition coversCanvas (c : Canvas) (p : Painted) : bool :=
  match deviceRect p with
  | Some (x0, y0, x1, y1) =>
      Qle_bool x0 0 && Qle_bool y0 0
      && Qle_bool (inject_Z (width c)) x1
      && Qle_bool (inject_Z (height c)) y1
  | None => false
  end.

(** The user-space rectangles (left, top, right, bottom) of the images in a
    display list, and the smallest rectangle around them. *)
Definition imageRects (l : list Painted) : list (Q * Q * Q * Q) :=
  flat_map (fun p =>
    match p with
    | DrawImage _ _ x y w h => [(x, y, x + w, y + h)]
    | _ => []
    end) l.


(** The validation fields a settled resolution writes. *)
Definition outcomeFields (outcome : string + string) : ValidationStatus * string :=
  match outcome with
  | inr url => (valid, url)
  | inl _ => (invalid, "")
  end.

(** A group's validation fields are those its current identifier resolves to. *)
Definition reflectsIdentifier (net : Network) (g : BarcodeGroup) : Prop :=
  (validationStatus g, resolvedUrl g) = outcomeFields (resolveUrl net (inputValue g)).

(** Backing-store size, transform and save stack are the same in [c'] as in
    [c]. *)
Definition sameGeometry (c c' : Canvas) : Prop :=
  width c' = width c /\ height c' = height c
  /\ scaleX (state c') = scaleX (state c)
  /\ scaleY (state c') = scaleY (state c)
  /\ saved c' = saved c.

Definition logicalWidth (env : Env) (isPreview : bool) : Q :=
  if isPreview then inject_Z (offsetWidth env) else A4_WIDTH_PX.

Definition logicalHeight (env : Env) (isPreview : bool) : Q :=
  if isPreview then inject_Z (offsetHeight env) else A4_HEIGHT_PX.

(** The canvas once sized and filled white (lines 105-119). *)
Definition preparedCanvas (env : Env) (isPreview : bool) (canvas : Canvas) : Canvas :=
  fst (prepareCanvas env isPreview
         (logicalWidth env isPreview) (logicalHeight env isPreview) canvas).

(** The canvas [drawContent] starts on: in preview mode, after the [save]
    and [scale] of lines 188-189. *)
Definition contentStart (env : Env) (isPreview : bool) (canvas : Canvas) : Canvas :=
  if isPreview then
    fst ((ctx_save ;;
          ctx_scale
            (Qmin (logicalWidth env true / A4_WIDTH_PX)
                  (logicalHeight env true / A4_HEIGHT_PX))
            (Qmin (logicalWidth env true / A4_WIDTH_PX)
                  (logicalHeight env true / A4_HEIGHT_PX)))
           (preparedCanvas env true canvas))
  else preparedCanvas env false canvas.


(** The drawing state the [catch] block paints its rectangle in. *)
Definition tinted (st : DrawingState) : DrawingState :=
  mkState (scaleX st) (scaleY st) "rgba(255, 0, 0, 0.1)" (font st) (textAlign st).

(** [p] with the transform it was painted under forgotten. *)
Definition unscaled (p : Painted) : Painted :=
  let flat st := mkState 1 1 (fillStyle st) (font st) (textAlign st) in
  match p with
  | FillRect st x y w h => FillRect (flat st) x y w h
  | FillText st text x y => FillText (flat st) text x y
  | DrawImage st img dx dy dw dh => DrawImage (flat st) img dx dy dw dh
  end.

Definition isFillRect (p : Painted) : bool :=
  match p with FillRect _ _ _ _ _ => true | _ => false end.

(** The titles and images of a display list, in page coordinates: what
    [drawContent] paints, without the background and the tint, which are in
    the coordinates of the box. *)
Definition pageContent (l : list Painted) : list Painted :=
  map unscaled (filter (fun p => negb (isFillRect p)) l).

(** The transform a title or an image was painted under. *)
Definition scaleOf (p : Painted) : Q * Q :=
  match p with
  | FillRect st _ _ _ _ | FillText st _ _ _ | DrawImage st _ _ _ _ _ =>
      (scaleX st, scaleY st)
  end.

(** The number of copies the grids of [groups] hold. *)
Definition copies (groups : list BarcodeGroup) : nat :=
  fold_right (fun g n =>
    (Z.to_nat (horizontalCount g) * Z.to_nat (verticalCount g) + n)%nat) 0%nat groups.

(** Fill style, font and text alignment agree. *)
Definition sameStyle (st st' : DrawingState) : Prop :=
  fillStyle st = fillStyle st' /\ font st = font st' /\ textAlign st = textAlign st'.

(** Status and resolved URL go together: a [valid] group has an URL, an
    [idle] or [invalid] one has none. *)
Definition coherent (g : BarcodeGroup) : Prop :=
  (validationStatus g = valid -> resolvedUrl g <> "")
  /\ (validationStatus g = idle \/ validationStatus g = invalid ->
      resolvedUrl g = "").

(** Line 89: the groups the validation timer starts a resolution for. *)
Definition awaitsValidation (g : BarcodeGroup) : bool :=
  JsString.truthy (inputValue g) && ValidationStatus_eqb (validationStatus g) idle.

(** A group of the list has this [id]. *)
Definition hasId (id0 : Z) (groups : list BarcodeGroup) : bool :=
  existsb (fun g => (id g =? id0)%Z) groups.

(** The [id]s the validation timer starts a resolution for, and what the
    synchronous part of those calls does to a group. *)
Definition startedIds (snapshot : list BarcodeGroup) : list Z :=
  map id (filter awaitsValidation snapshot).

Definition markChecking (ids : list Z) (g : BarcodeGroup) : BarcodeGroup :=
  if existsb (fun i => (id g =? i)%Z) ids
  then withValidation g checking (resolvedUrl g) else g.

(** * Properties *)

(** ** Arithmetic and the monad *)

Lemma Qgtb_true (a b : Q) : Qgtb a b = true <-> b < a.
Proof.
  unfold Qgtb. rewrite negb_true_iff.
  split; intro H.
  - apply Qnot_le_lt. intro L. apply Qle_bool_iff in L. congruence.
  - destruct (Qle_bool a b) eqn:E; [|reflexivity].
    apply Qle_bool_iff in E. exfalso. apply (Qlt_not_le _ _ H E).
Qed.

Lemma Qgtb_false (a b : Q) : Qgtb a b = false <-> a <= b.
Proof.
  unfold Qgtb. rewrite negb_false_iff. apply Qle_bool_iff.
Qed.

Lemma ValidationStatus_eqb_eq (a b : ValidationStatus) :
  ValidationStatus_eqb a b = true <-> a = b.
Proof. destruct a, b; simpl; split; congruence. Qed.

Lemma bind_ok {A B : Type} (m : M A) (k : A -> M B) (c c' : Canvas) (a : A) :
  m c = (c', inr a) -> bind m k c = k a c'.
Proof. intro H. unfold bind. now rewrite H. Qed.

Lemma bind_throw {A B : Type} (m : M A) (k : A -> M B) (c c' : Canvas) (msg : string) :
  m c = (c', inl msg) -> bind m k c = (c', inl msg).
Proof. intro H. unfold bind. now rewrite H. Qed.

Lemma appendPainted_nil (c : Canvas) : appendPainted c [] = c.
Proof. destruct c. unfold appendPainted. simpl. now rewrite app_nil_r. Qed.

Lemma appendPainted_app (c : Canvas) (l1 l2 : list Painted) :
  appendPainted (appendPainted c l1) l2 = appendPainted c (l1 ++ l2).
Proof. unfold appendPainted. simpl. now rewrite app_assoc. Qed.

(** ** The grid loops *)

(** A loop whose body only paints, paints the bodies' output in index order. *)
Lemma forFrom_paints (f : DrawingState -> Z -> list Painted) (body : Z -> M unit) :
  (forall j c, body j c = (appendPainted c (f (state c) j), inr tt)) ->
  forall n i c,
    forFrom n i body c =
    (appendPainted c
       (flat_map (fun k => f (state c) (i + Z.of_nat k)%Z) (seq 0 n)),
     inr tt).
Proof.
  intros Hbody n. induction n as [|n IH]; intros i c.
  - simpl. now rewrite appendPainted_nil.
  - cbn [forFrom]. rewrite (bind_ok _ _ _ _ _ (Hbody i c)).
    rewrite IH. rewrite appendPainted_app. f_equal. f_equal.
    cbn [seq flat_map]. rewrite Z.add_0_r. f_equal.
    rewrite <- seq_shift.
    rewrite (flat_map_concat_map _ (map S (seq 0 n))), map_map.
    rewrite <- flat_map_concat_map.
    apply flat_map_ext. intro k. simpl state.
    f_equal. lia.
Qed.

Lemma flat_map_single {A B : Type} (g : A -> B) (l : list A) :
  flat_map (fun a => [g a]) l = map g l.
Proof. induction l as [|a l IH]; simpl; congruence. Qed.

Lemma drawGrid_run (group : BarcodeGroup) (img : HTMLImageElement)
    (startX startY bw bh : Q) (c : Canvas) :
  drawGrid group img startX startY bw bh c =
  (appendPainted c
     (gridCells (state c) img startX startY bw bh
        (Z.to_nat (horizontalCount group)) (Z.to_nat (verticalCount group))),
   inr tt).
Proof.
  unfold drawGrid, forUpTo.
  rewrite (forFrom_paints
    (fun st y =>
       flat_map (fun k =>
         [DrawImage st img (startX + inject_Z (0 + Z.of_nat k) * bw)
                    (startY + inject_Z y * bh) bw bh])
         (seq 0 (Z.to_nat (horizontalCount group))))).
  - unfold gridCells, cellAt.
    replace (flat_map _ (seq 0 (Z.to_nat (verticalCount group))))
      with (flat_map (fun row =>
              map (fun col =>
                DrawImage (state c) img
                  (startX + inject_Z (Z.of_nat col) * bw)
                  (startY + inject_Z (Z.of_nat row) * bh) bw bh)
                (seq 0 (Z.to_nat (horizontalCount group))))
              (seq 0 (Z.to_nat (verticalCount group)))); [reflexivity|].
    apply flat_map_ext. intro row. now rewrite flat_map_single.
  - intros y c0.
    rewrite (forFrom_paints
      (fun st x => [DrawImage st img (startX + inject_Z x * bw)
                              (startY + inject_Z y * bh) bw bh])).
    + reflexivity.
    + intros x c1. reflexivity.
Qed.

Lemma flat_map_seq_length {B : Type} (f : nat -> list B) (m : nat) :
  (forall k, List.length (f k) = m) ->
  forall n, List.length (flat_map f (seq 0 n)) = (n * m)%nat.
Proof.
  intros Hf n. induction n as [|n IH]; [reflexivity|].
  rewrite seq_S, flat_map_app, length_app, IH. simpl.
  rewrite app_nil_r, Hf. lia.
Qed.


Lemma gridCells_length st img startX startY cw ch (cols rows : nat) :
  List.length (gridCells st img startX startY cw ch cols rows) = (cols * rows)%nat.
Proof.
  unfold gridCells.
  rewrite (flat_map_seq_length _ cols).
  - lia.
  - intro k. now rewrite length_map, length_seq.
Qed.


Lemma gridCells_In st img startX startY cw ch (cols rows : nat) (p : Painted) :
  In p (gridCells st img startX startY cw ch cols rows) ->
  exists col row, (col < cols)%nat /\ (row < rows)%nat
                  /\ p = cellAt st img startX startY cw ch col row.
Proof.
  unfold gridCells. intro H. apply in_flat_map in H.
  destruct H as [row [Hrow H]]. apply in_map_iff in H.
  destruct H as [col [Hp Hcol]]. apply in_seq in Hrow. apply in_seq in Hcol.
  exists col, row. repeat split; [lia|lia|now symmetry].
Qed.

(** ** The steps of the loop body *)

Lemma drawTitle_run (g : BarcodeGroup) (y : Q) (c : Canvas) :
  drawTitle g y c = (canvasAfterTitle g y c, inr (cursorAfterTitle g y)).
Proof.
  unfold drawTitle, canvasAfterTitle, cursorAfterTitle, hasTitle.
  destruct (JsString.truthy (title g)
            && negb (String.eqb (JsString.trim (title g)) "")); reflexivity.
Qed.


Section LoopBody.

Variable env : Env.
Variable group : BarcodeGroup.
Variable currentYOffset : Q.
Variable c : Canvas.

(** The cursor and the canvas when the grid of [group] is reached. *)
Let cursorY : Q := cursorAfterTitle group (currentYOffset + marginTop group * DPI).
Let c1 : Canvas := canvasAfterTitle group (currentYOffset + marginTop group * DPI) c.

Lemma drawGroup_load_error :
  loadImage env (resolvedUrl group) = None ->
  drawGroup env group currentYOffset c =
  (c1, inl ("Failed to load: "
            ++ JsString.substring0 50 (resolvedUrl group) ++ "...")).
Proof.
  intro Hload. unfold drawGroup.
  rewrite (bind_ok _ _ _ _ _ (drawTitle_run _ _ _)).
  unfold awaitImage. rewrite Hload. reflexivity.
Qed.

Variables w h : N.
Hypothesis Hload : loadImage env (resolvedUrl group) = Some (w, h).

Let img : HTMLImageElement := mkImage (resolvedUrl group) w h.
Let cellWidth : Q := fst (barcodeSize group img).
Let cellHeight : Q := snd (barcodeSize group img).
Let gridWidth : Q := inject_Z (horizontalCount group) * cellWidth.
Let gridHeight : Q := inject_Z (verticalCount group) * cellHeight.

Lemma drawGroup_zero_size :
  cellWidth == 0 \/ cellHeight == 0 ->
  drawGroup env group currentYOffset c =
  (c1, inl ("Image from " ++ JsString.substring0 50 (resolvedUrl group)
            ++ "... has zero dimensions.")).
Proof.
  intro Hz. unfold drawGroup.
  rewrite (bind_ok _ _ _ _ _ (drawTitle_run _ _ _)).
  unfold awaitImage. rewrite Hload.
  rewrite (bind_ok _ _ (canvasAfterTitle _ _ _) (canvasAfterTitle _ _ _) img
             eq_refl).
  subst cellWidth cellHeight.
  destruct (barcodeSize group img) as [bw bh]. simpl in Hz.
  replace (Qeq_bool bw 0 || Qeq_bool bh 0) with true; [reflexivity|].
  symmetry. apply orb_true_iff.
  destruct Hz as [Hz|Hz]; [left|right]; now apply Qeq_bool_iff.
Qed.

Hypothesis Hw : ~ cellWidth == 0.
Hypothesis Hh : ~ cellHeight == 0.

Lemma drawGroup_overflow :
  A4_HEIGHT_PX < cursorY + gridHeight ->
  drawGroup env group currentYOffset c =
  (c1, inl "Content overflows A4 page. Reduce counts or adjust margins.").
Proof.
  intro Hover. unfold drawGroup.
  rewrite (bind_ok _ _ _ _ _ (drawTitle_run _ _ _)).
  unfold awaitImage. rewrite Hload.
  rewrite (bind_ok _ _ (canvasAfterTitle _ _ _) (canvasAfterTitle _ _ _) img
             eq_refl).
  subst gridHeight cellWidth cellHeight.
  destruct (barcodeSize group img) as [bw bh]. simpl in *.
  replace (Qeq_bool bw 0 || Qeq_bool bh 0) with false.
  - apply Qgtb_true in Hover. subst cursorY. rewrite Hover. reflexivity.
  - symmetry. apply orb_false_iff. split.
    + destruct (Qeq_bool bw 0) eqn:E; [|reflexivity].
      apply Qeq_bool_iff in E. contradiction.
    + destruct (Qeq_bool bh 0) eqn:E; [|reflexivity].
      apply Qeq_bool_iff in E. contradiction.
Qed.

Lemma drawGroup_fits :
  cursorY + gridHeight <= A4_HEIGHT_PX ->
  drawGroup env group currentYOffset c =
  (appendPainted c1
     (gridCells (state c1) img ((A4_WIDTH_PX - gridWidth) / 2) cursorY
        cellWidth cellHeight
        (Z.to_nat (horizontalCount group)) (Z.to_nat (verticalCount group))),
   inr (cursorY + gridHeight)).
Proof.
  intro Hfit. unfold drawGroup.
  rewrite (bind_ok _ _ _ _ _ (drawTitle_run _ _ _)).
  unfold awaitImage. rewrite Hload.
  rewrite (bind_ok _ _ (canvasAfterTitle _ _ _) (canvasAfterTitle _ _ _) img
             eq_refl).
  subst gridWidth gridHeight cellWidth cellHeight.
  destruct (barcodeSize group img) as [bw bh]. simpl in *.
  replace (Qeq_bool bw 0 || Qeq_bool bh 0) with false.
  - apply Qgtb_false in Hfit. subst cursorY. rewrite Hfit.
    rewrite (bind_ok _ _ _ _ _ (drawGrid_run _ _ _ _ _ _ _)).
    reflexivity.
  - symmetry. apply orb_false_iff. split.
    + destruct (Qeq_bool bw 0) eqn:E; [|reflexivity].
      apply Qeq_bool_iff in E. contradiction.
    + destruct (Qeq_bool bh 0) eqn:E; [|reflexivity].
      apply Qeq_bool_iff in E. contradiction.
Qed.

End LoopBody.

(** ** What the loop body leaves alone *)

Lemma sameGeometry_refl (c : Canvas) : sameGeometry c c.
Proof. unfold sameGeometry. tauto. Qed.

Lemma sameGeometry_trans (c1 c2 c3 : Canvas) :
  sameGeometry c1 c2 -> sameGeometry c2 c3 -> sameGeometry c1 c3.
Proof. unfold sameGeometry. intuition congruence. Qed.

Lemma sameGeometry_appendPainted (c : Canvas) (l : list Painted) :
  sameGeometry c (appendPainted c l).
Proof. unfold sameGeometry, appendPainted. simpl. tauto. Qed.

Lemma sameGeometry_title (g : BarcodeGroup) (y : Q) (c : Canvas) :
  sameGeometry c (canvasAfterTitle g y c).
Proof.
  unfold canvasAfterTitle. destruct (hasTitle g).
  - unfold sameGeometry. simpl. tauto.
  - apply sameGeometry_refl.
Qed.

(** The four ways through the loop body. *)
Lemma drawGroup_cases (env : Env) (g : BarcodeGroup) (y : Q) (c : Canvas) :
  let c1 := canvasAfterTitle g (y + marginTop g * DPI) c in
  let cursorY := cursorAfterTitle g (y + marginTop g * DPI) in
  (exists msg, drawGroup env g y c = (c1, inl msg)
               /\ forall c', drawGroup env g y c'
                    = (canvasAfterTitle g (y + marginTop g * DPI) c', inl msg))
  \/
  (exists w h,
     loadImage env (resolvedUrl g) = Some (w, h)
     /\ let img := mkImage (resolvedUrl g) w h in
        let cw := fst (barcodeSize g img) in
        let ch := snd (barcodeSize g img) in
        let gh := inject_Z (verticalCount g) * ch in
        ~ cw == 0 /\ ~ ch == 0 /\ cursorY + gh <= A4_HEIGHT_PX
        /\ forall c',
             drawGroup env g y c' =
             (appendPainted (canvasAfterTitle g (y + marginTop g * DPI) c')
                (gridCells
                   (state (canvasAfterTitle g (y + marginTop g * DPI) c')) img
                   ((A4_WIDTH_PX - inject_Z (horizontalCount g) * cw) / 2)
                   cursorY cw ch
                   (Z.to_nat (horizontalCount g)) (Z.to_nat (verticalCount g))),
              inr (cursorY + gh))).
Proof.
  intros c1 cursorY.
  destruct (loadImage env (resolvedUrl g)) as [[w h]|] eqn:Hload.
  - set (img := mkImage (resolvedUrl g) w h).
    destruct (Qeq_dec (fst (barcodeSize g img)) 0) as [Hw|Hw].
    { left. eexists. split; [|intro c'];
        apply (drawGroup_zero_size env g y _ w h Hload); now left. }
    destruct (Qeq_dec (snd (barcodeSize g img)) 0) as [Hh|Hh].
    { left. eexists. split; [|intro c'];
        apply (drawGroup_zero_size env g y _ w h Hload); now right. }
    destruct (Qlt_le_dec A4_HEIGHT_PX
                (cursorY + inject_Z (verticalCount g) * snd (barcodeSize g img)))
      as [Hover|Hfit].
    { left. eexists. split; [|intro c'];
        apply (drawGroup_overflow env g y _ w h Hload Hw Hh Hover). }
    right. exists w, h. split; [reflexivity|]. simpl.
    repeat split; try assumption.
    intro c'. apply (drawGroup_fits env g y c' w h Hload Hw Hh Hfit).
  - left. eexists. split; [|intro c']; now apply drawGroup_load_error.
Qed.

(** Whether the body throws, with which message, and the cursor it returns
    do not depend on the canvas. *)
Lemma drawGroup_outcome_indep (env : Env) (g : BarcodeGroup) (y : Q) (c c' : Canvas) :
  snd (drawGroup env g y c) = snd (drawGroup env g y c').
Proof.
  destruct (drawGroup_cases env g y c) as [[msg [_ H]]|[w [h [_ H]]]].
  - now rewrite (H c), (H c').
  - simpl in H. destruct H as [_ [_ [_ H]]]. now rewrite (H c), (H c').
Qed.

Lemma drawGroup_geometry (env : Env) (g : BarcodeGroup) (y : Q) (c : Canvas) :
  sameGeometry c (fst (drawGroup env g y c)).
Proof.
  destruct (drawGroup_cases env g y c) as [[msg [H _]]|[w [h [_ H]]]].
  - rewrite H. apply sameGeometry_title.
  - simpl in H. destruct H as [_ [_ [_ H]]]. rewrite (H c). simpl.
    eapply sameGeometry_trans; [apply sameGeometry_title|].
    apply sameGeometry_appendPainted.
Qed.

Lemma drawGroups_outcome_indep (env : Env) (gs : list BarcodeGroup) :
  forall (y : Q) (c c' : Canvas),
    snd (drawGroups env gs y c) = snd (drawGroups env gs y c').
Proof.
  induction gs as [|g gs IH]; intros y c c'; [reflexivity|].
  cbn [drawGroups]. unfold bind.
  pose proof (drawGroup_outcome_indep env g y c c') as H.
  destruct (drawGroup env g y c) as [d [m|y1]];
    destruct (drawGroup env g y c') as [d' [m'|y1']]; simpl in H;
    try discriminate.
  - exact H.
  - injection H as ->. apply IH.
Qed.

Lemma drawGroups_geometry (env : Env) (gs : list BarcodeGroup) :
  forall (y : Q) (c : Canvas), sameGeometry c (fst (drawGroups env gs y c)).
Proof.
  induction gs as [|g gs IH]; intros y c; [apply sameGeometry_refl|].
  cbn [drawGroups]. unfold bind.
  pose proof (drawGroup_geometry env g y c) as H.
  destruct (drawGroup env g y c) as [d [m|y1]]; simpl in *; [exact H|].
  eapply sameGeometry_trans; [exact H|apply IH].
Qed.

(** The loop over a concatenation is the loop over the first part, then, if
    that did not throw, the loop over the second part from where it
    stopped. *)
Lemma drawGroups_app (env : Env) (pre post : list BarcodeGroup) :
  forall (y : Q) (c : Canvas),
    drawGroups env (pre ++ post) y c =
    bind (drawGroups env pre y) (drawGroups env post) c.
Proof.
  induction pre as [|g pre IH]; intros y c; [reflexivity|].
  cbn [app drawGroups]. unfold bind at 1.
  destruct (drawGroup env g y c) as [d [m|y1]] eqn:E.
  - unfold bind. now rewrite E.
  - rewrite IH. unfold bind. now rewrite E.
Qed.

(** ** The render pass as a whole *)

Lemma tryBlock_run (env : Env) (isPreview : bool) (canvas : Canvas)
    (validGroups : list BarcodeGroup) :
  tryBlock env isPreview (logicalWidth env isPreview) (logicalHeight env isPreview)
           validGroups (preparedCanvas env isPreview canvas) =
  match drawGroups env validGroups 0 (contentStart env isPreview canvas) with
  | (c2, inr _) => (if isPreview then fst (ctx_restore c2) else c2, inr tt)
  | (c2, inl errorMessage) => (c2, inl errorMessage)
  end.
Proof.
  destruct isPreview.
  - unfold tryBlock, contentStart, drawContent.
    set (s := Qmin _ _). set (p := preparedCanvas env true canvas).
    unfold bind, ctx_save, ctx_scale, modify. cbn [fst].
    match goal with
    | |- context [drawGroups env validGroups 0 ?c] =>
        destruct (drawGroups env validGroups 0 c) as [c2 [m|y]]
    end; reflexivity.
  - unfold tryBlock, contentStart, drawContent, bind.
    destruct (drawGroups env validGroups 0 (preparedCanvas env false canvas))
      as [c2 [m|y]]; reflexivity.
Qed.

Lemma drawOnCanvas_run (env : Env) (canvas : Canvas)
    (groups : list BarcodeGroup) (isPreview : bool) (error : option string) :
  drawOnCanvas env canvas groups isPreview error =
  match filter isValidGroup groups with
  | [] => (preparedCanvas env isPreview canvas, error)
  | validGroups =>
      match drawGroups env validGroups 0 (contentStart env isPreview canvas) with
      | (c2, inr _) => (if isPreview then fst (ctx_restore c2) else c2, None)
      | (c2, inl errorMessage) =>
          (fst (paintErrorTint (logicalWidth env isPreview)
                               (logicalHeight env isPreview) c2),
           Some errorMessage)
      end
  end.
Proof.
  unfold drawOnCanvas.
  fold (logicalWidth env isPreview). fold (logicalHeight env isPreview).
  fold (preparedCanvas env isPreview canvas).
  destruct (filter isValidGroup groups) as [|g vg]; [reflexivity|].
  rewrite tryBlock_run.
  destruct (drawGroups env (g :: vg) 0 (contentStart env isPreview canvas))
    as [c2 [m|y]]; reflexivity.
Qed.

(** The message a render pass leaves in the [error] state depends on the
    groups and the loader only. *)
Lemma drawOnCanvas_error (env : Env) (canvas c : Canvas)
    (groups : list BarcodeGroup) (isPreview : bool) (error : option string) :
  snd (drawOnCanvas env canvas groups isPreview error) =
  match filter isValidGroup groups with
  | [] => error
  | validGroups =>
      match snd (drawGroups env validGroups 0 c) with
      | inr _ => None
      | inl errorMessage => Some errorMessage
      end
  end.
Proof.
  rewrite drawOnCanvas_run.
  destruct (filter isValidGroup groups) as [|g vg]; [reflexivity|].
  rewrite (drawGroups_outcome_indep env (g :: vg) 0 c
             (contentStart env isPreview canvas)).
  destruct (drawGroups env (g :: vg) 0 (contentStart env isPreview canvas))
    as [c2 [m|y]]; reflexivity.
Qed.

Lemma preparedCanvas_export (env : Env) (canvas : Canvas) :
  preparedCanvas env false canvas =
  mkCanvas 2481 3507
    (mkState 1 1 "white" (mkFont "normal" 10 "sans-serif") "start") []
    [FillRect (mkState 1 1 "white" (mkFont "normal" 10 "sans-serif") "start")
       0 0 A4_WIDTH_PX A4_HEIGHT_PX].
Proof. reflexivity. Qed.

Lemma drawOnCanvas_export_size (env : Env) (canvas : Canvas)
    (groups : list BarcodeGroup) (error : option string) :
  width (fst (drawOnCanvas env canvas groups false error)) = 2481%Z
  /\ height (fst (drawOnCanvas env canvas groups false error)) = 3507%Z.
Proof.
  rewrite drawOnCanvas_run.
  destruct (filter isValidGroup groups) as [|g vg].
  - rewrite preparedCanvas_export. simpl. split; reflexivity.
  - pose proof (drawGroups_geometry env (g :: vg) 0 (contentStart env false canvas))
      as [Hw [Hh _]].
    unfold contentStart in *. rewrite preparedCanvas_export in *.
    destruct (drawGroups env (g :: vg) 0 _) as [c2 [m|y]]; simpl in *;
      split; assumption.
Qed.

(** ** Where the cells of a grid lie *)



Lemma isValidGroup_true (g : BarcodeGroup) :
  isValidGroup g = true <->
  resolvedUrl g <> "" /\ validationStatus g = valid
  /\ (0 < horizontalCount g)%Z /\ (0 < verticalCount g)%Z.
Proof.
  unfold isValidGroup. rewrite !andb_true_iff, !Z.ltb_lt, ValidationStatus_eqb_eq.
  destruct (resolvedUrl g); simpl; intuition congruence.
Qed.

(** ** Painting only ever adds to the display list *)

Lemma drawGroup_extends (env : Env) (g : BarcodeGroup) (y : Q) (c : Canvas) :
  exists l, painted (fst (drawGroup env g y c)) = (painted c ++ l)%list.
Proof.
  assert (T : exists l, painted (canvasAfterTitle g (y + marginTop g * DPI) c)
                        = (painted c ++ l)%list).
  { unfold canvasAfterTitle. destruct (hasTitle g); simpl.
    - eexists. reflexivity.
    - exists []. now rewrite app_nil_r. }
  destruct T as [lt Ht].
  destruct (drawGroup_cases env g y c) as [[msg [H _]]|[w [h [_ H]]]].
  - rewrite H. simpl. now exists lt.
  - simpl in H. destruct H as [_ [_ [_ H]]]. rewrite (H c). simpl.
    rewrite Ht, <- app_assoc. eexists. reflexivity.
Qed.

Lemma drawGroups_extends (env : Env) (gs : list BarcodeGroup) :
  forall (y : Q) (c : Canvas),
    exists l, painted (fst (drawGroups env gs y c)) = (painted c ++ l)%list.
Proof.
  induction gs as [|g gs IH]; intros y c.
  - exists []. simpl. now rewrite app_nil_r.
  - cbn [drawGroups]. unfold bind.
    destruct (drawGroup_extends env g y c) as [l1 H1].
    destruct (drawGroup env g y c) as [d [m|y1]]; simpl in *.
    + now exists l1.
    + destruct (IH y1 d) as [l2 H2]. rewrite H2, H1, <- app_assoc.
      eexists. reflexivity.
Qed.


(** ** A group that is reached and fits *)


(** ** The vertical cursor *)









Lemma paintErrorTint_run (lw lh : Q) (c : Canvas) :
  fst (paintErrorTint lw lh c) =
  mkCanvas (width c) (height c) (tinted (state c)) (saved c)
           (painted c ++ [FillRect (tinted (state c)) 0 0 lw lh]).
Proof. reflexivity. Qed.

Lemma contentStart_painted (env : Env) (isPreview : bool) (canvas : Canvas) :
  painted (contentStart env isPreview canvas) =
  [FillRect (state (preparedCanvas env isPreview canvas)) 0 0
            (logicalWidth env isPreview) (logicalHeight env isPreview)].
Proof. destruct isPreview; reflexivity. Qed.

(** ** Titles *)





(** ** Suffixes and lower case *)


Lemma toLowerCase_length (a : string) :
  String.length (JsString.toLowerCase a) = String.length a.
Proof. induction a as [|ch a IH]; simpl; congruence. Qed.





(** ** Events on the component *)

Lemma validateFinish_spec (id0 : Z) (outcome : string + string)
    (prev : list BarcodeGroup) :
  validateFinish id0 outcome prev =
  map (fun g =>
         if (id g =? id0)%Z
         then withValidation g (fst (outcomeFields outcome))
                               (snd (outcomeFields outcome))
         else g) prev.
Proof. destruct outcome; reflexivity. Qed.

(** The three kinds of event, on a component with a single group. *)
Lemma step_edit_single (net : Network) (g : BarcodeGroup) (e : Edit)
    (fl : list (Z * string)) :
  step net (mkApp [g] fl) (UserEdit (id g) e) = mkApp [updateGroup g e] fl.
Proof. cbn [step handleGroupChange barcodeGroups inFlight map]. now rewrite Z.eqb_refl. Qed.

Lemma step_timer_single (net : Network) (g : BarcodeGroup) (fl : list (Z * string)) :
  JsString.truthy (inputValue g) = true /\ validationStatus g = idle ->
  step net (mkApp [g] fl) ValidationTimer =
  mkApp [withValidation g checking (resolvedUrl g)]
        (fl ++ [(id g, inputValue g)]).
Proof.
  intros [Ht Hs].
  cbn [step barcodeGroups startValidations]. rewrite Ht, Hs.
  cbn [ValidationStatus_eqb andb]. unfold validateStart. rewrite Ht.
  cbn [negb barcodeGroups inFlight map startValidations]. now rewrite Z.eqb_refl.
Qed.

Lemma step_settle_single (net : Network) (g : BarcodeGroup)
    (fl : list (Z * string)) (k : nat) (value : string) :
  nth_error fl k = Some (id g, value) ->
  step net (mkApp [g] fl) (Settles k) =
  mkApp [withValidation g (fst (outcomeFields (resolveUrl net value)))
                          (snd (outcomeFields (resolveUrl net value)))]
        (removeNth k fl).
Proof.
  intro Hk. cbn [step inFlight barcodeGroups]. rewrite Hk.
  rewrite validateFinish_spec. cbn [map]. now rewrite Z.eqb_refl.
Qed.

(** The timer firing on one idle group and the resolution settling at once
    is the uninterrupted call. *)
Lemma validateBarcodeUrl_uninterrupted (net : Network) (g : BarcodeGroup) :
  JsString.truthy (inputValue g) = true /\ validationStatus g = idle ->
  run net (mkApp [g] []) [ValidationTimer; Settles 0]
  = mkApp (validateBarcodeUrl net (id g) (inputValue g) [g]) [].
Proof.
  intros [Ht Hs]. unfold run. cbn [fold_left].
  rewrite step_timer_single by (split; assumption).
  rewrite (step_settle_single net _ _ 0 (inputValue g)) by reflexivity.
  unfold validateBarcodeUrl, validateStart. rewrite Ht. cbn [negb map].
  rewrite Z.eqb_refl, validateFinish_spec. cbn [map withValidation id].
  now rewrite Z.eqb_refl.
Qed.

(** No writer of [marginTop] stores a negative margin: the groups the
    component starts with have none, and no action of the user and no write
    of a validation introduces one. *)
Lemma margins_never_negative :
  (forall now, Forall (fun g => 0 <= marginTop g) (initialGroups now))
  /\ (forall a prev,
        Forall (fun g => 0 <= marginTop g) prev ->
        Forall (fun g => 0 <= marginTop g) (act a prev))
  /\ (forall id0 value prev,
        Forall (fun g => 0 <= marginTop g) prev ->
        Forall (fun g => 0 <= marginTop g) (fst (validateStart id0 value prev)))
  /\ (forall id0 outcome prev,
        Forall (fun g => 0 <= marginTop g) prev ->
        Forall (fun g => 0 <= marginTop g) (validateFinish id0 outcome prev)).
Proof.
  assert (Hmap : forall (f : BarcodeGroup -> BarcodeGroup) id0 prev,
             (forall g, 0 <= marginTop g -> 0 <= marginTop (f g)) ->
             Forall (fun g => 0 <= marginTop g) prev ->
             Forall (fun g => 0 <= marginTop g)
               (map (fun g => if (id g =? id0)%Z then f g else g) prev)).
  { intros f id0 prev Hf Hprev. rewrite Forall_map.
    eapply Forall_impl; [|exact Hprev]. intros g Hg. cbn beta.
    destruct (id g =? id0)%Z; [now apply Hf|exact Hg]. }
  split; [|split; [|split]].
  - intro now. repeat constructor. simpl. lra.
  - intros a prev Hprev.
    destruct a as [i t|i t|i p|i p|i p|now|i]; cbn [act].
    + apply Hmap; [intros g Hg; exact Hg|exact Hprev].
    + apply Hmap; [intros g Hg; exact Hg|exact Hprev].
    + apply Hmap; [|exact Hprev]. intros g _. cbn [updateGroup marginTop].
      apply Q.le_max_l.
    + apply Hmap; [intros g Hg; exact Hg|exact Hprev].
    + apply Hmap; [intros g Hg; exact Hg|exact Hprev].
    + unfold handleAddGroup. apply Forall_app. split; [exact Hprev|].
      repeat constructor. simpl. lra.
    + unfold handleRemoveGroup. rewrite Forall_forall in *.
      intros g Hg. apply filter_In in Hg. apply Hprev. tauto.
  - intros id0 value prev Hprev. unfold validateStart.
    destruct (negb (JsString.truthy value)); cbn [fst];
      (apply Hmap; [intros g Hg; exact Hg|exact Hprev]).
  - intros id0 outcome prev Hprev. rewrite validateFinish_spec.
    apply Hmap; [intros g Hg; exact Hg|exact Hprev].
Qed.

(** ** Failed passes *)

(** When [drawContent] throws, the pass stores the message and paints one
    more rectangle, with the tint as fill style and the arguments of the
    white background. *)
Lemma failed_pass_tint (env : Env) (canvas : Canvas) (groups : list BarcodeGroup)
    (isPreview : bool) (error : option string) (msg : string) :
  snd (drawOnCanvas env canvas groups isPreview error) = Some msg ->
  filter isValidGroup groups <> [] ->
  exists shown st,
    painted (fst (drawOnCanvas env canvas groups isPreview error))
      = (shown ++ [FillRect (tinted st) 0 0
                     (logicalWidth env isPreview) (logicalHeight env isPreview)])%list
    /\ scaleX st = scaleX (state (contentStart env isPreview canvas))
    /\ scaleY st = scaleY (state (contentStart env isPreview canvas)).
Proof.
  intros Herr Hne. rewrite drawOnCanvas_run in *.
  destruct (filter isValidGroup groups) as [|g vg]; [contradiction|].
  pose proof (drawGroups_geometry env (g :: vg) 0 (contentStart env isPreview canvas))
    as [_ [_ [Hx [Hy _]]]].
  destruct (drawGroups env (g :: vg) 0 (contentStart env isPreview canvas))
    as [c2 [m|y]]; [|discriminate].
  simpl in Hx, Hy. rewrite paintErrorTint_run. cbn [fst painted].
  exists (painted c2), (state c2). split; [reflexivity|]. now split.
Qed.

(** In export mode the tint of a failed pass covers the whole canvas. *)
Lemma export_tint_covers (env : Env) (canvas : Canvas) (groups : list BarcodeGroup)
    (error : option string) (msg : string) :
  snd (drawOnCanvas env canvas groups false error) = Some msg ->
  filter isValidGroup groups <> [] ->
  exists shown tint,
    painted (fst (drawOnCanvas env canvas groups false error))
      = (shown ++ [tint])%list
    /\ coversCanvas (fst (drawOnCanvas env canvas groups false error)) tint = true.
Proof.
  intros Herr Hne.
  destruct (failed_pass_tint env canvas groups false error msg Herr Hne)
    as [shown [st [Hp [Hx Hy]]]].
  exists shown. eexists. split; [exact Hp|].
  destruct (drawOnCanvas_export_size env canvas groups error) as [Hw Hh].
  unfold coversCanvas, deviceRect. rewrite Hw, Hh.
  cbn [tinted scaleX scaleY]. rewrite Hx, Hy. reflexivity.
Qed.

(** No step after the sizing of lines 110-115 changes the backing store. *)
Lemma drawOnCanvas_size (env : Env) (canvas : Canvas) (groups : list BarcodeGroup)
    (isPreview : bool) (error : option string) :
  width (fst (drawOnCanvas env canvas groups isPreview error))
    = width (preparedCanvas env isPreview canvas)
  /\ height (fst (drawOnCanvas env canvas groups isPreview error))
    = height (preparedCanvas env isPreview canvas).
Proof.
  rewrite drawOnCanvas_run.
  destruct (filter isValidGroup groups) as [|g vg]; [split; reflexivity|].
  pose proof (drawGroups_geometry env (g :: vg) 0 (contentStart env isPreview canvas))
    as [Hw [Hh _]].
  assert (Hs : width (contentStart env isPreview canvas)
               = width (preparedCanvas env isPreview canvas)
               /\ height (contentStart env isPreview canvas)
               = height (preparedCanvas env isPreview canvas)).
  { destruct isPreview; split; reflexivity. }
  destruct Hs as [Hsw Hsh].
  destruct (drawGroups env (g :: vg) 0 (contentStart env isPreview canvas))
    as [c2 [m|y]]; simpl in Hw, Hh.
  - rewrite paintErrorTint_run. cbn [fst width height]. split; congruence.
  - destruct isPreview; cbn [fst]; [|split; congruence].
    unfold ctx_restore, modify. cbn [fst].
    destruct (saved c2); cbn [width height]; split; congruence.
Qed.

(** In preview mode, at device pixel ratio 1 and on a box narrower than the
    page, the tint of a failed pass stops short of the right edge of the
    canvas: it is painted under the preview scale, which the skipped
    [ctx.restore()] would have undone. *)
Lemma preview_tint_misses (env : Env) (canvas : Canvas) (groups : list BarcodeGroup)
    (error : option string) (msg : string) :
  devicePixelRatio env = 1 ->
  (0 < offsetWidth env < 2481)%Z ->
  snd (drawOnCanvas env canvas groups true error) = Some msg ->
  filter isValidGroup groups <> [] ->
  exists shown tint,
    painted (fst (drawOnCanvas env canvas groups true error))
      = (shown ++ [tint])%list
    /\ coversCanvas (fst (drawOnCanvas env canvas groups true error)) tint = false.
Proof.
  intros Hdpr Hbox Herr Hne.
  destruct (failed_pass_tint env canvas groups true error msg Herr Hne)
    as [shown [st [Hp [Hx _]]]].
  exists shown. eexists. split; [exact Hp|].
  destruct (drawOnCanvas_size env canvas groups true error) as [Hw _].
  assert (Hwidth : width (preparedCanvas env true canvas) = offsetWidth env).
  { unfold preparedCanvas, prepareCanvas, logicalWidth. rewrite Hdpr.
    cbn. unfold toUnsignedLong. cbn [Qnum Qden Qmult inject_Z].
    rewrite Z.mul_1_r. change (Z.pos (1 * 1)) with 1%Z. rewrite Z.quot_1_r.
    apply Z.mod_small. lia. }
  assert (Hscale : scaleX (state (contentStart env true canvas))
                   == Qmin (inject_Z (offsetWidth env) / A4_WIDTH_PX)
                           (inject_Z (offsetHeight env) / A4_HEIGHT_PX)).
  { unfold contentStart, preparedCanvas, prepareCanvas, logicalWidth,
      logicalHeight. rewrite Hdpr. cbn. ring. }
  unfold coversCanvas, deviceRect. rewrite Hw, Hwidth.
  cbn [tinted scaleX scaleY]. rewrite Hx.
  apply andb_false_iff. left. apply andb_false_iff. right.
  destruct (Qle_bool _ _) eqn:E; [|reflexivity].
  apply Qle_bool_iff in E. exfalso.
  unfold logicalWidth in E. rewrite Hscale in E.
  set (lw := inject_Z (offsetWidth env)) in *.
  assert (Hlw : 0 < lw).
  { subst lw. change 0 with (inject_Z 0). rewrite <- Zlt_Qlt. lia. }
  assert (Hlt : lw < A4_WIDTH_PX).
  { subst lw. assert (X : A4_WIDTH_PX == inject_Z 2481) by reflexivity.
    rewrite X. rewrite <- Zlt_Qlt. lia. }
  assert (Hs : Qmin (lw / A4_WIDTH_PX)
                    (inject_Z (offsetHeight env) / A4_HEIGHT_PX) < 1).
  { apply (Qle_lt_trans _ (lw / A4_WIDTH_PX)); [apply Q.le_min_l|].
    apply Qlt_shift_div_r; [reflexivity|lra]. }
  set (s := Qmin _ _) in *.
  assert (Hprod : (0 + lw) * s < lw).
  { assert (X : (0 + lw) * s == lw * s) by ring. rewrite X.
    assert (Y : lw == lw * 1) by ring. rewrite Y at 2.
    apply Qmult_lt_l; assumption. }
  apply (Qlt_not_le _ _ Hprod E).
Qed.

(** ** Passes with nothing to draw *)

(** A pass without contributing group sizes the canvas, fills it white, and
    returns at line 122: the [error] state is what it was. *)
Lemma nothing_to_draw (env : Env) (canvas : Canvas) (groups : list BarcodeGroup)
    (isPreview : bool) (error : option string) :
  filter isValidGroup groups = [] ->
  drawOnCanvas env canvas groups isPreview error
  = (preparedCanvas env isPreview canvas, error).
Proof. intro H. rewrite drawOnCanvas_run. now rewrite H. Qed.

(** * The claims *)

(** ** C1: the geometry of a group's grid *)



(** ** C2: vertical overflow and the cursor *)



(** ** C3: the title band *)




(** ** C4: the correction for vector images *)



(** ** C5: resolutions that settle out of order *)

(** C5, against the claim as worded. A lookup service that knows every
    number, every image reachable. The identifier of group 7 is set to "1",
    the validation timer fires, the identifier is set to "2", the timer fires
    again; both resolutions are now in flight. The second settles, then the
    first: the group ends up [valid] with the URL of "1" under the
    identifier "2". (When the first settles before the second, the group
    shows the URL of "1" under the identifier "2" in between.) *)
Lemma C5_stale_result_counterexample :
  let net :=
    mkNetwork
      (fun value => Some (LookupOk (Some ("https://cdn.example/" ++ value ++ ".png"))))
      (fun _ => Some true) in
  let g0 := mkGroup 7 "" "" idle "" 5 10 0 in
  let edits :=
    [UserEdit 7 (SetInputValue "1"); ValidationTimer;
     UserEdit 7 (SetInputValue "2"); ValidationTimer] in
  inFlight (run net (mkApp [g0] []) edits) = [(7%Z, "1"); (7%Z, "2")]
  /\ resolveUrl net "2" = inr "https://cdn.example/2.png"
  /\ run net (mkApp [g0] []) (edits ++ [Settles 1; Settles 0])
     = mkApp [mkGroup 7 "2" "https://cdn.example/1.png" valid "" 5 10 0] []
  /\ ~ Forall (reflectsIdentifier net)
         (barcodeGroups (run net (mkApp [g0] []) (edits ++ [Settles 1; Settles 0])))
  /\ run net (mkApp [g0] []) (edits ++ [Settles 0])
     = mkApp [mkGroup 7 "2" "https://cdn.example/1.png" valid "" 5 10 0]
             [(7%Z, "2")].
Proof.
  intros net g0 edits.
  split; [reflexivity|]. split; [reflexivity|]. split; [reflexivity|].
  split; [|reflexivity].
  intro H. inversion H as [|g gs Hg _]; subst.
  unfold reflectsIdentifier in Hg. vm_compute in Hg. discriminate.
Qed.

(** C5, as the code has it. (1) When the [k]-th resolution in flight, started
    for [(id0, value)], settles, every group whose [id] is [id0] gets the
    status and URL that [value] resolves to, whatever its identifier is by
    then, and keeps its other fields; the other groups are unchanged. (2)
    Hence, for a group whose identifier is set to [v1] and then to [v2] (both
    non-empty) with the validation timer firing after each edit: once both
    resolutions have settled, the group carries the identifier [v2] and the
    status and URL of whichever resolution settled last: those of [v2] when
    the first settles first, those of [v1] when the first settles last. *)
Theorem C5_last_settled_wins :
  (forall net s k id0 value,
     nth_error (inFlight s) k = Some (id0, value) ->
     Forall2 (fun g g' =>
                ((id g = id0 ->
                  g' = withValidation g
                         (fst (outcomeFields (resolveUrl net value)))
                         (snd (outcomeFields (resolveUrl net value))))
                 /\ (id g <> id0 -> g' = g))
                /\ inputValue g' = inputValue g)
             (barcodeGroups s) (barcodeGroups (step net s (Settles k))))
  /\ (forall net g0 v1 v2,
        v1 <> "" -> v2 <> "" ->
        let edits :=
          [UserEdit (id g0) (SetInputValue v1); ValidationTimer;
           UserEdit (id g0) (SetInputValue v2); ValidationTimer] in
        let settled status url :=
          mkApp [mkGroup (id g0) v2 url status (title g0)
                         (horizontalCount g0) (verticalCount g0) (marginTop g0)]
                [] in
        run net (mkApp [g0] []) (edits ++ [Settles 0; Settles 0])
          = settled (fst (outcomeFields (resolveUrl net v2)))
                    (snd (outcomeFields (resolveUrl net v2)))
        /\ run net (mkApp [g0] []) (edits ++ [Settles 1; Settles 0])
          = settled (fst (outcomeFields (resolveUrl net v1)))
                    (snd (outcomeFields (resolveUrl net v1)))).
Proof.
  split.
  - intros net s k id0 value Hk. cbn [step]. rewrite Hk. cbn [barcodeGroups].
    rewrite validateFinish_spec.
    induction (barcodeGroups s) as [|g gs IH]; [constructor|].
    cbn [map]. constructor; [|exact IH].
    destruct (Z.eqb_spec (id g) id0) as [E|N].
    + split; [split; [intros _; reflexivity|intro X; contradiction]|reflexivity].
    + split; [split; [intro X; contradiction|intros _; reflexivity]|reflexivity].
  - intros net g0 v1 v2 H1 H2 edits settled.
    assert (T1 : JsString.truthy v1 = true) by (destruct v1; [congruence|reflexivity]).
    assert (T2 : JsString.truthy v2 = true) by (destruct v2; [congruence|reflexivity]).
    unfold run, edits, settled. cbn [app fold_left].
    rewrite (step_edit_single net g0 (SetInputValue v1) []).
    rewrite step_timer_single by (cbn; rewrite ?T1; split; reflexivity).
    cbn [updateGroup withValidation id inputValue resolvedUrl title
         horizontalCount verticalCount marginTop app].
    rewrite (step_edit_single net (mkGroup (id g0) v1 "" checking (title g0)
               (horizontalCount g0) (verticalCount g0) (marginTop g0))
               (SetInputValue v2)).
    rewrite step_timer_single by (cbn; rewrite ?T2; split; reflexivity).
    cbn [updateGroup withValidation id inputValue resolvedUrl title
         horizontalCount verticalCount marginTop app].
    split.
    + rewrite (step_settle_single net _ _ 0 v1) by reflexivity.
      cbn [removeNth withValidation id inputValue resolvedUrl title
           horizontalCount verticalCount marginTop].
      rewrite (step_settle_single net _ _ 0 v2) by reflexivity.
      reflexivity.
    + rewrite (step_settle_single net _ _ 1 v2) by reflexivity.
      cbn [removeNth withValidation id inputValue resolvedUrl title
           horizontalCount verticalCount marginTop].
      rewrite (step_settle_single net _ _ 0 v1) by reflexivity.
      reflexivity.
Qed.

Lemma C5_last_settled_wins_witness :
  let net :=
    mkNetwork
      (fun value => Some (LookupOk (Some ("https://cdn.example/" ++ value ++ ".png"))))
      (fun _ => Some true) in
  let g0 := mkGroup 7 "" "" idle "" 5 10 0 in
  let edits :=
    [UserEdit 7 (SetInputValue "1"); ValidationTimer;
     UserEdit 7 (SetInputValue "2"); ValidationTimer] in
  (run net (mkApp [g0] []) (edits ++ [Settles 0; Settles 0])
     = mkApp [mkGroup 7 "2" "https://cdn.example/2.png" valid "" 5 10 0] []
   /\ run net (mkApp [g0] []) (edits ++ [Settles 1; Settles 0])
     = mkApp [mkGroup 7 "2" "https://cdn.example/1.png" valid "" 5 10 0] [])
  /\ Forall2 (fun g g' =>
                ((id g = 7%Z ->
                  g' = withValidation g valid "https://cdn.example/1.png")
                 /\ (id g <> 7%Z -> g' = g))
                /\ inputValue g' = inputValue g)
       [mkGroup 7 "2" "" checking "" 5 10 0; mkGroup 8 "3" "" idle "" 5 10 0]
       (barcodeGroups
          (step net
             (mkApp [mkGroup 7 "2" "" checking "" 5 10 0;
                     mkGroup 8 "3" "" idle "" 5 10 0]
                    [(7%Z, "1"); (7%Z, "2")])
             (Settles 0))).
Proof.
  intros net g0 edits.
  destruct C5_last_settled_wins as [Hstep Hrace].
  split.
  - apply (Hrace net g0 "1" "2"); discriminate.
  - apply (Hstep net
             (mkApp [mkGroup 7 "2" "" checking "" 5 10 0;
                     mkGroup 8 "3" "" idle "" 5 10 0]
                    [(7%Z, "1"); (7%Z, "2")])
             0%nat 7%Z "1").
    reflexivity.
Defined.

(** ** C6: the tint of a failed pass *)

(** C6, at a failing input. Preview mode, a canvas box of 600 by 848 CSS
    pixels, device pixel ratio 1, one valid group whose image fails to
    load. The error message is stored and the tint rectangle is painted,
    but [drawContent] threw between [ctx.save(); ctx.scale(scaleToFit,
    scaleToFit)] and [ctx.restore()], so the rectangle is painted under the
    preview scale 848/3507: it covers the backing store from (0, 0) to about
    (145, 205), not the 600 by 848 canvas, which the white background,
    painted with the same arguments before the scale, does cover. The same
    group in export mode gets a tint over the whole canvas. *)
Theorem C6_preview_tint_misses_canvas :
  let group := mkGroup 1 "1" "https://cdn.example/1.png" valid "" 5 10 0 in
  let env := mkEnv 600 848 1 (fun _ => None) in
  let shown := drawOnCanvas env freshCanvas [group] true None in
  snd shown = Some "Failed to load: https://cdn.example/1.png..."
  /\ width (fst shown) = 600%Z /\ height (fst shown) = 848%Z
  /\ (exists white tint,
        painted (fst shown) = [white; tint]
        /\ white = FillRect (mkState 1 1 "white" (mkFont "normal" 10 "sans-serif") "start")
                     0 0 600 848
        /\ tint = FillRect (mkState (84800 # 350700) (84800 # 350700)
                              "rgba(255, 0, 0, 0.1)"
                              (mkFont "normal" 10 "sans-serif") "start")
                    0 0 600 848
        /\ coversCanvas (fst shown) white = true
        /\ coversCanvas (fst shown) tint = false
        /\ match deviceRect tint with
           | Some (x0, y0, x1, y1) =>
               x0 == 0 /\ y0 == 0 /\ x1 < 146 /\ y1 < 206
           | None => False
           end)
  /\ (exists before tint,
        painted (fst (drawOnCanvas env freshCanvas [group] false None))
          = (before ++ [tint])%list
        /\ coversCanvas (fst (drawOnCanvas env freshCanvas [group] false None)) tint
           = true).
Proof.
  intros group env shown.
  split; [reflexivity|]. split; [reflexivity|]. split; [reflexivity|]. split.
  - do 2 eexists. split; [vm_compute; reflexivity|].
    split; [reflexivity|]. split; [reflexivity|].
    split; [reflexivity|]. split; [reflexivity|].
    vm_compute. repeat split.
  - apply (export_tint_covers env freshCanvas [group] None
             "Failed to load: https://cdn.example/1.png...").
    + reflexivity.
    + discriminate.
Qed.

(** ** C7: a pass with nothing to draw *)

(** C7, at a failing input. The pass with no group, or with no contributing
    group, does leave a white page (in export mode 2481 by 3507, one white
    rectangle over all of it) and raises no error of its own; but it
    returns before the [try] block whose success branch calls
    [setError(null)], so an error message shown before it stays. Preview of
    a group that overflows the page: the overflow message is shown. The
    user then changes the group's identifier, which makes the group [idle]:
    the next preview pass has no contributing group, paints the white page
    only, and the overflow message is still there. *)
Theorem C7_stale_error_survives_blank_pass :
  (forall env canvas isPreview error,
     snd (drawOnCanvas env canvas [] isPreview error) = error)
  /\ (forall env canvas,
        exists white,
          painted (fst (drawOnCanvas env canvas [] false None)) = [white]
          /\ white = FillRect (mkState 1 1 "white" (mkFont "normal" 10 "sans-serif")
                                 "start") 0 0 A4_WIDTH_PX A4_HEIGHT_PX
          /\ width (fst (drawOnCanvas env canvas [] false None)) = 2481%Z
          /\ height (fst (drawOnCanvas env canvas [] false None)) = 3507%Z
          /\ coversCanvas (fst (drawOnCanvas env canvas [] false None)) white = true)
  /\ (let tall := mkGroup 1 "1" "https://cdn.example/tall.png" valid "" 5 2 0 in
      let env := mkEnv 600 848 1 (fun _ => Some (100%N, 1754%N)) in
      let first := drawOnCanvas env freshCanvas [tall] true None in
      let edited := handleGroupChange 1 (SetInputValue "12") [tall] in
      let second := drawOnCanvas env (fst first) edited true (snd first) in
      snd first
        = Some "Content overflows A4 page. Reduce counts or adjust margins."
      /\ filter isValidGroup edited = []
      /\ painted (fst second)
         = [FillRect (mkState 1 1 "white" (mkFont "normal" 10 "sans-serif") "start")
              0 0 600 848]
      /\ snd second
         = Some "Content overflows A4 page. Reduce counts or adjust margins.").
Proof.
  split; [|split].
  - intros env canvas isPreview error. now rewrite nothing_to_draw.
  - intros env canvas. rewrite nothing_to_draw by reflexivity.
    rewrite preparedCanvas_export. eexists. split; [reflexivity|].
    repeat split.
  - intros tall env first edited second. repeat split.
Qed.

(** ** C8: when the download is disabled *)

(** C8. The download button is disabled, so that a click starts no export,
    whenever there is no group, or some group is not [valid], or some group
    has a repeat count that is not positive; what the other groups are does
    not matter. *)
Theorem C8_export_prevented (isLoading : bool) (groups : list BarcodeGroup) :
  groups = []
  \/ (exists g, In g groups
                /\ (validationStatus g <> valid
                    \/ (horizontalCount g <= 0)%Z
                    \/ (verticalCount g <= 0)%Z)) ->
  isDownloadDisabled isLoading groups = true
  /\ forall env, clickDownload env isLoading groups = None.
Proof.
  intro H.
  assert (D : isDownloadDisabled isLoading groups = true).
  { unfold isDownloadDisabled. destruct H as [->|[g [Hin Hg]]].
    - simpl. now rewrite orb_true_r.
    - apply orb_true_iff. right. apply existsb_exists. exists g.
      split; [exact Hin|].
      destruct Hg as [Hs|[Hx|Hy]].
      + destruct (validationStatus g); try contradiction; reflexivity.
      + apply Z.leb_le in Hx. rewrite Hx.
        now rewrite orb_true_r, orb_true_l.
      + apply Z.leb_le in Hy. rewrite Hy. now rewrite orb_true_r. }
  split; [exact D|]. intro env. unfold clickDownload. now rewrite D.
Qed.

(** One valid group that would render alone, next to one still being
    checked: no export. *)
Lemma C8_export_prevented_witness :
  let ok := mkGroup 1 "1" "https://cdn.example/1.png" valid "" 5 10 0 in
  let pending := mkGroup 2 "2" "" checking "" 5 10 (1 # 10) in
  isDownloadDisabled false [ok] = false
  /\ isDownloadDisabled false [ok; pending] = true
  /\ forall env, clickDownload env false [ok; pending] = None.
Proof.
  intros ok pending. split; [reflexivity|].
  apply (C8_export_prevented false [ok; pending]).
  right. exists pending. split; [simpl; tauto|].
  left. simpl. discriminate.
Defined.

(** ** C9: page constants and export size *)

(** C9. The page is 8.27in by 11.69in at 300 DPI: [A4_WIDTH_PX] is 2481 and
    [A4_HEIGHT_PX] is 3507, exactly, in exact arithmetic and in binary64
    alike; and whatever the groups, the loader and the canvas handed in, an
    export-mode render pass, hence the canvas the download is made from,
    leaves a backing store of exactly 2481 by 3507 pixels. *)
Theorem C9_page_constants_and_export_size :
  A4_WIDTH_PX == 2481 /\ A4_HEIGHT_PX == 3507
  /\ Binary64.A4_WIDTH_PX = 2481%float /\ Binary64.A4_HEIGHT_PX = 3507%float
  /\ (forall env canvas groups error,
        inject_Z (width (fst (drawOnCanvas env canvas groups false error)))
          == A4_WIDTH_PX
        /\ inject_Z (height (fst (drawOnCanvas env canvas groups false error)))
          == A4_HEIGHT_PX)
  /\ (forall env groups,
        width (fst (handleGenerateAndDownload env groups)) = 2481%Z
        /\ height (fst (handleGenerateAndDownload env groups)) = 3507%Z).
Proof.
  split; [reflexivity|]. split; [reflexivity|].
  split; [reflexivity|]. split; [reflexivity|]. split.
  - intros env canvas groups error.
    destruct (drawOnCanvas_export_size env canvas groups error) as [-> ->].
    split; reflexivity.
  - intros env groups. apply drawOnCanvas_export_size.
Qed.

(** ** C10: no horizontal overflow check *)



(** * Further properties of the code *)

(** ** Render passes *)

Lemma preparedCanvas_fresh (env : Env) (isPreview : bool) (c c' : Canvas) :
  preparedCanvas env isPreview c = preparedCanvas env isPreview c'.
Proof. destruct isPreview; reflexivity. Qed.

(** X1. A group that does not contribute (not [valid], no URL, or a repeat
    count that is not positive) leaves no trace in a render pass, wherever it
    stands in the sequence: the canvas and the [error] state are the same
    as without it. *)
Theorem X1_noncontributing_group_ignored (env : Env) (canvas : Canvas)
    (pre post : list BarcodeGroup) (g : BarcodeGroup)
    (isPreview : bool) (error : option string) :
  isValidGroup g = false ->
  drawOnCanvas env canvas (pre ++ g :: post) isPreview error
  = drawOnCanvas env canvas (pre ++ post) isPreview error.
Proof.
  intro Hg. rewrite !drawOnCanvas_run, !filter_app. cbn [filter].
  now rewrite Hg.
Qed.

Lemma X1_noncontributing_group_ignored_witness :
  let a := mkGroup 1 "1" "https://cdn.example/1.png" valid "A" 5 10 0 in
  let off := mkGroup 2 "2" "https://cdn.example/2.png" valid "B" 0 10 (1 # 10) in
  let b := mkGroup 3 "3" "https://cdn.example/3.png" valid "C" 3 4 (1 # 10) in
  let env := mkEnv 600 848 1 (fun _ => Some (100%N, 50%N)) in
  drawOnCanvas env freshCanvas [a; off; b] false None
  = drawOnCanvas env freshCanvas [a; b] false None.
Proof.
  intros a off b env.
  apply (X1_noncontributing_group_ignored env freshCanvas [a] [b] off false None).
  reflexivity.
Defined.

(** X2. A render pass starts from scratch: the canvas it leaves and the
    [error] state it leaves do not depend on what the canvas showed, on its
    size or on the state of its context before the pass. *)
Theorem X2_pass_ignores_previous_canvas (env : Env) (c c' : Canvas)
    (groups : list BarcodeGroup) (isPreview : bool) (error : option string) :
  drawOnCanvas env c groups isPreview error
  = drawOnCanvas env c' groups isPreview error.
Proof.
  rewrite !drawOnCanvas_run. unfold contentStart.
  now rewrite !(preparedCanvas_fresh env _ c c').
Qed.

(** What the pass shows and stores when the loop body throws at a group it
    reaches. *)
Lemma reached_group_throws (env : Env) (canvas : Canvas)
    (groups pre post : list BarcodeGroup) (group : BarcodeGroup)
    (isPreview : bool) (error : option string) (y : Q) (msg : string) :
  filter isValidGroup groups = (pre ++ group :: post)%list ->
  snd (drawGroups env pre 0 (contentStart env isPreview canvas)) = inr y ->
  (forall c, drawGroup env group y c
             = (canvasAfterTitle group (y + marginTop group * DPI) c, inl msg)) ->
  let reached :=
    canvasAfterTitle group (y + marginTop group * DPI)
      (fst (drawGroups env pre 0 (contentStart env isPreview canvas))) in
  snd (drawOnCanvas env canvas groups isPreview error) = Some msg
  /\ painted (fst (drawOnCanvas env canvas groups isPreview error))
     = (painted reached ++
        [FillRect (tinted (state reached)) 0 0
           (logicalWidth env isPreview) (logicalHeight env isPreview)])%list.
Proof.
  intros Hvalid Hpre Hthrow reached.
  assert (Hrun : drawOnCanvas env canvas groups isPreview error =
            (fst (paintErrorTint (logicalWidth env isPreview)
                    (logicalHeight env isPreview) reached), Some msg)).
  { rewrite drawOnCanvas_run, Hvalid.
    destruct (pre ++ group :: post)%list as [|g0 vg] eqn:E.
    { now destruct pre. }
    rewrite <- E, drawGroups_app. unfold bind. subst reached.
    destruct (drawGroups env pre 0 (contentStart env isPreview canvas))
      as [cP [m|y']]; simpl in Hpre; [discriminate|].
    injection Hpre as ->. cbn [drawGroups fst]. unfold bind.
    rewrite Hthrow. reflexivity. }
  rewrite Hrun. split; [reflexivity|]. now rewrite paintErrorTint_run.
Qed.

Lemma substring0_length (n : nat) (s : string) :
  (String.length (JsString.substring0 n s) <= n)%nat.
Proof.
  unfold JsString.substring0. revert s.
  induction n as [|n IH]; intros [|ch s]; simpl; try lia.
  specialize (IH s). lia.
Qed.

(** X7. When the image of a contributing group that the pass reaches fails
    to load, the pass ends there: the [error] state holds "Failed to load: "
    followed by at most the first 50 characters of the URL and "...", and
    the canvas shows what was painted up to that group's title, then the
    tint; no later group is painted. *)
Theorem X7_load_failure (env : Env) (canvas : Canvas)
    (groups pre post : list BarcodeGroup) (group : BarcodeGroup)
    (isPreview : bool) (error : option string) (y : Q) :
  filter isValidGroup groups = (pre ++ group :: post)%list ->
  snd (drawGroups env pre 0 (contentStart env isPreview canvas)) = inr y ->
  loadImage env (resolvedUrl group) = None ->
  let reached :=
    canvasAfterTitle group (y + marginTop group * DPI)
      (fst (drawGroups env pre 0 (contentStart env isPreview canvas))) in
  let shownUrl := JsString.substring0 50 (resolvedUrl group) in
  snd (drawOnCanvas env canvas groups isPreview error)
    = Some ("Failed to load: " ++ shownUrl ++ "...")
  /\ (String.length shownUrl <= 50)%nat
  /\ painted (fst (drawOnCanvas env canvas groups isPreview error))
     = (painted reached ++
        [FillRect (tinted (state reached)) 0 0
           (logicalWidth env isPreview) (logicalHeight env isPreview)])%list.
Proof.
  intros Hvalid Hpre Hload reached shownUrl.
  destruct (reached_group_throws env canvas groups pre post group isPreview error y
              ("Failed to load: " ++ shownUrl ++ "...") Hvalid Hpre) as [A B].
  { intro c. now apply drawGroup_load_error. }
  split; [exact A|]. split; [apply substring0_length|exact B].
Qed.

Lemma X7_load_failure_witness :
  let a := mkGroup 1 "1" "https://cdn.example/1.png" valid "" 5 10 0 in
  let b := mkGroup 2 "2" "https://cdn.example/missing.png" valid "" 5 10 0 in
  let env :=
    mkEnv 600 848 1
      (fun url => if String.eqb url "https://cdn.example/1.png"
                  then Some (100%N, 50%N) else None) in
  snd (drawOnCanvas env freshCanvas [a; b] false None)
  = Some "Failed to load: https://cdn.example/missing.png...".
Proof.
  intros a b env.
  apply (X7_load_failure env freshCanvas [a; b] [a] [] b false None
           (0 + 0 * DPI + inject_Z 10 * inject_Z 50)).
  - reflexivity.
  - reflexivity.
  - reflexivity.
Defined.

Lemma barcodeSize_zero (g : BarcodeGroup) (img : HTMLImageElement) :
  naturalWidth img = 0%N \/ naturalHeight img = 0%N ->
  fst (barcodeSize g img) == 0 \/ snd (barcodeSize g img) == 0.
Proof.
  unfold barcodeSize.
  intros [H|H]; [left|right]; rewrite H;
    destruct (JsString.endsWith _ _); reflexivity.
Qed.

(** X8. When the image of a contributing group that the pass reaches loads
    with an intrinsic width or height of 0, vector or not, the pass ends
    there with "Image from <URL, at most 50 characters>... has zero
    dimensions." in the [error] state, nothing of that group's grid and no
    later group painted, and the tint on top. *)
Theorem X8_zero_sized_image (env : Env) (canvas : Canvas)
    (groups pre post : list BarcodeGroup) (group : BarcodeGroup)
    (isPreview : bool) (error : option string) (y : Q) (w h : N) :
  filter isValidGroup groups = (pre ++ group :: post)%list ->
  snd (drawGroups env pre 0 (contentStart env isPreview canvas)) = inr y ->
  loadImage env (resolvedUrl group) = Some (w, h) ->
  w = 0%N \/ h = 0%N ->
  let reached :=
    canvasAfterTitle group (y + marginTop group * DPI)
      (fst (drawGroups env pre 0 (contentStart env isPreview canvas))) in
  snd (drawOnCanvas env canvas groups isPreview error)
    = Some ("Image from " ++ JsString.substring0 50 (resolvedUrl group)
            ++ "... has zero dimensions.")
  /\ painted (fst (drawOnCanvas env canvas groups isPreview error))
     = (painted reached ++
        [FillRect (tinted (state reached)) 0 0
           (logicalWidth env isPreview) (logicalHeight env isPreview)])%list.
Proof.
  intros Hvalid Hpre Hload Hzero reached.
  apply (reached_group_throws env canvas groups pre post group isPreview error y
           _ Hvalid Hpre).
  intro c. apply (drawGroup_zero_size env group y c w h Hload).
  apply (barcodeSize_zero group (mkImage (resolvedUrl group) w h)). exact Hzero.
Qed.

Lemma X8_zero_sized_image_witness :
  let v := mkGroup 1 "1" "https://cdn.example/empty.svg" valid "" 5 10 0 in
  let env := mkEnv 600 848 1 (fun _ => Some (0%N, 50%N)) in
  snd (drawOnCanvas env freshCanvas [v] true None)
  = Some "Image from https://cdn.example/empty.svg... has zero dimensions.".
Proof.
  intros v env.
  apply (X8_zero_sized_image env freshCanvas [v] [] [] v true None 0 0%N 50%N).
  - reflexivity.
  - reflexivity.
  - reflexivity.
  - left. reflexivity.
Defined.

(** X9. A preview pass that ends without error puts the context back as it
    was after the white fill: the transform is the device pixel ratio alone,
    the fill style, font and alignment set for titles are gone, and the
    save stack is empty. *)
Theorem X9_preview_success_restores_context (env : Env) (canvas : Canvas)
    (groups : list BarcodeGroup) (error : option string) :
  filter isValidGroup groups <> [] ->
  snd (drawOnCanvas env canvas groups true error) = None ->
  state (fst (drawOnCanvas env canvas groups true error))
    = state (preparedCanvas env true canvas)
  /\ fillStyle (state (fst (drawOnCanvas env canvas groups true error))) = "white"
  /\ saved (fst (drawOnCanvas env canvas groups true error)) = [].
Proof.
  intros Hne Hok. rewrite drawOnCanvas_run in *.
  destruct (filter isValidGroup groups) as [|g vg]; [contradiction|].
  pose proof (drawGroups_geometry env (g :: vg) 0 (contentStart env true canvas))
    as [_ [_ [_ [_ Hs]]]].
  destruct (drawGroups env (g :: vg) 0 (contentStart env true canvas))
    as [c2 [m|y]]; [discriminate|].
  cbn [fst] in *. unfold ctx_restore, modify. cbn [fst].
  rewrite Hs. unfold contentStart. cbn. repeat split.
Qed.

Lemma X9_preview_success_restores_context_witness :
  let a := mkGroup 1 "1" "https://cdn.example/1.png" valid "Batch A" 5 10 0 in
  let env := mkEnv 600 848 2 (fun _ => Some (100%N, 50%N)) in
  state (fst (drawOnCanvas env freshCanvas [a] true None))
    = mkState (1 * 2) (1 * 2) "white" (mkFont "normal" 10 "sans-serif") "start"
  /\ saved (fst (drawOnCanvas env freshCanvas [a] true None)) = [].
Proof.
  intros a env.
  destruct (X9_preview_success_restores_context env freshCanvas [a] None)
    as [Hstate [_ Hsaved]].
  - discriminate.
  - vm_compute. reflexivity.
  - split; [exact Hstate|exact Hsaved].
Defined.

(** ** What the loop paints *)

Lemma sameStyle_unscaled_cells (st st' : DrawingState) img sx sy cw ch cols rows :
  sameStyle st st' ->
  map unscaled (gridCells st img sx sy cw ch cols rows)
  = map unscaled (gridCells st' img sx sy cw ch cols rows).
Proof.
  intros [Hf [Hn Ha]]. unfold gridCells.
  rewrite !flat_map_concat_map, !concat_map, !map_map. f_equal.
  apply map_ext. intro row. rewrite !map_map. apply map_ext. intro col.
  unfold cellAt, unscaled. now rewrite Hf, Hn, Ha.
Qed.

Lemma gridCells_Forall (P : Painted -> Prop) st img sx sy cw ch cols rows :
  (forall col row, P (cellAt st img sx sy cw ch col row)) ->
  Forall P (gridCells st img sx sy cw ch cols rows).
Proof.
  intro H. apply Forall_forall. intros p Hp.
  apply gridCells_In in Hp. destruct Hp as [col [row [_ [_ ->]]]]. apply H.
Qed.

(** The title band, as a list painted after what the canvas shows. *)
Lemma canvasAfterTitle_paints (g : BarcodeGroup) (y : Q) (c : Canvas) :
  exists lt,
    painted (canvasAfterTitle g y c) = (painted c ++ lt)%list
    /\ lt = (if hasTitle g
             then [FillText (titleState (state c)) (title g)
                     (A4_WIDTH_PX / 2) (y + titleFontPx)]
             else [])
    /\ state (canvasAfterTitle g y c)
       = (if hasTitle g then titleState (state c) else state c).
Proof.
  unfold canvasAfterTitle. destruct (hasTitle g); simpl.
  - eexists. repeat split.
  - exists []. rewrite app_nil_r. repeat split.
Qed.

(** What one turn of the loop adds to the display list: no rectangle,
    everything under the transform the canvas had, and, transform apart, the
    same on two canvases whose styles agree. *)
Lemma drawGroup_paints (env : Env) (g : BarcodeGroup) (y : Q) (c c' : Canvas) :
  sameStyle (state c) (state c') ->
  exists l l',
    painted (fst (drawGroup env g y c)) = (painted c ++ l)%list
    /\ painted (fst (drawGroup env g y c')) = (painted c' ++ l')%list
    /\ map unscaled l = map unscaled l'
    /\ Forall (fun p => isFillRect p = false
                        /\ scaleOf p = (scaleX (state c), scaleY (state c))) l
    /\ sameStyle (state (fst (drawGroup env g y c)))
                 (state (fst (drawGroup env g y c'))).
Proof.
  intro Hs.
  destruct (canvasAfterTitle_paints g (y + marginTop g * DPI) c)
    as [lt [Hlt [Elt Est]]].
  destruct (canvasAfterTitle_paints g (y + marginTop g * DPI) c')
    as [lt' [Hlt' [Elt' Est']]].
  assert (Hu : map unscaled lt = map unscaled lt').
  { rewrite Elt, Elt'. destruct (hasTitle g); reflexivity. }
  assert (Hs1 : sameStyle (state (canvasAfterTitle g (y + marginTop g * DPI) c))
                  (state (canvasAfterTitle g (y + marginTop g * DPI) c'))).
  { rewrite Est, Est'. destruct (hasTitle g); [|exact Hs].
    unfold sameStyle. simpl. tauto. }
  assert (Hsc : scaleX (state (canvasAfterTitle g (y + marginTop g * DPI) c))
                = scaleX (state c)
                /\ scaleY (state (canvasAfterTitle g (y + marginTop g * DPI) c))
                = scaleY (state c)).
  { rewrite Est. destruct (hasTitle g); split; reflexivity. }
  assert (Hft : Forall (fun p => isFillRect p = false
                   /\ scaleOf p = (scaleX (state c), scaleY (state c))) lt).
  { rewrite Elt. destruct (hasTitle g); repeat constructor. }
  destruct (drawGroup_cases env g y c) as [[msg [_ H]]|[w [h [_ H]]]].
  - rewrite (H c), (H c'). cbn [fst].
    exists lt, lt'.
    split; [exact Hlt|]. split; [exact Hlt'|]. split; [exact Hu|].
    split; [exact Hft|exact Hs1].
  - simpl in H. destruct H as [_ [_ [_ H]]]. rewrite (H c), (H c').
    cbn [fst appendPainted painted state].
    eexists. eexists.
    split; [rewrite Hlt, <- app_assoc; reflexivity|].
    split; [rewrite Hlt', <- app_assoc; reflexivity|].
    split; [|split].
    + rewrite !map_app. f_equal; [exact Hu|].
      now apply sameStyle_unscaled_cells.
    + apply Forall_app. split; [exact Hft|].
      apply gridCells_Forall. intros col row. unfold cellAt.
      cbn [isFillRect scaleOf]. destruct Hsc as [-> ->]. split; reflexivity.
    + exact Hs1.
Qed.

Lemma drawGroups_paints (env : Env) (gs : list BarcodeGroup) :
  forall (y : Q) (c c' : Canvas),
    sameStyle (state c) (state c') ->
    exists l l',
      painted (fst (drawGroups env gs y c)) = (painted c ++ l)%list
      /\ painted (fst (drawGroups env gs y c')) = (painted c' ++ l')%list
      /\ map unscaled l = map unscaled l'
      /\ Forall (fun p => isFillRect p = false
                          /\ scaleOf p = (scaleX (state c), scaleY (state c))) l.
Proof.
  induction gs as [|g gs IH]; intros y c c' Hs.
  - exists [], []. cbn. rewrite !app_nil_r. repeat split. constructor.
  - cbn [drawGroups]. unfold bind.
    destruct (drawGroup_paints env g y c c' Hs) as [l1 [l1' [H1 [H1' [Hu [Hf Hs1]]]]]].
    pose proof (drawGroup_outcome_indep env g y c c') as Ho.
    pose proof (drawGroup_geometry env g y c) as [_ [_ [Hx [Hy _]]]].
    destruct (drawGroup env g y c) as [d [m|y1]];
      destruct (drawGroup env g y c') as [d' [m'|y1']]; cbn [fst snd] in *;
      try discriminate.
    + exists l1, l1'.
      split; [exact H1|]. split; [exact H1'|]. split; [exact Hu|exact Hf].
    + injection Ho as <-.
      destruct (IH y1 d d' Hs1) as [l2 [l2' [H2 [H2' [Hu2 Hf2]]]]].
      exists (l1 ++ l2)%list, (l1' ++ l2')%list.
      split; [rewrite H2, H1, <- app_assoc; reflexivity|].
      split; [rewrite H2', H1', <- app_assoc; reflexivity|].
      split; [rewrite !map_app; now f_equal|].
      apply Forall_app. split; [exact Hf|].
      rewrite Hx, Hy in Hf2. exact Hf2.
Qed.

Lemma pageContent_app (l1 l2 : list Painted) :
  pageContent (l1 ++ l2) = (pageContent l1 ++ pageContent l2)%list.
Proof. unfold pageContent. now rewrite filter_app, map_app. Qed.

Lemma pageContent_no_rect (l : list Painted) :
  Forall (fun p => isFillRect p = false) l -> pageContent l = map unscaled l.
Proof.
  intro H. unfold pageContent. f_equal.
  induction H as [|p l Hp _ IH]; [reflexivity|].
  cbn [filter]. rewrite Hp. cbn [negb]. now f_equal.
Qed.

(** The page content a pass shows is what the loop added to the canvas it
    started on. *)
Lemma drawOnCanvas_pageContent (env : Env) (canvas : Canvas)
    (groups : list BarcodeGroup) (isPreview : bool) (error : option string) :
  pageContent (painted (fst (drawOnCanvas env canvas groups isPreview error)))
  = match filter isValidGroup groups with
    | [] => []
    | validGroups =>
        pageContent
          (skipn 1 (painted (fst (drawGroups env validGroups 0
                                    (contentStart env isPreview canvas)))))
    end.
Proof.
  rewrite drawOnCanvas_run.
  destruct (filter isValidGroup groups) as [|g vg].
  { destruct isPreview; reflexivity. }
  destruct (drawGroups_extends env (g :: vg) 0 (contentStart env isPreview canvas))
    as [l Hl].
  rewrite contentStart_painted in Hl.
  destruct (drawGroups env (g :: vg) 0 (contentStart env isPreview canvas))
    as [c2 [m|y]]; cbn [fst] in *.
  - rewrite paintErrorTint_run. cbn [painted]. rewrite Hl. cbn [app skipn].
    change (?a :: l ++ ?t)%list with ([a] ++ l ++ t)%list.
    rewrite !pageContent_app. cbn. now rewrite app_nil_r.
  - assert (Hp : painted (if isPreview then fst (ctx_restore c2) else c2)
                 = painted c2).
    { destruct isPreview; [|reflexivity].
      unfold ctx_restore, modify. cbn [fst]. destruct (saved c2); reflexivity. }
    rewrite Hp, Hl. cbn [app skipn].
    change (?a :: l)%list with ([a] ++ l)%list.
    rewrite pageContent_app. reflexivity.
Qed.

(** X3. Preview and export agree on the page: for the same groups and the
    same loader, the titles and images a preview pass paints are, transform
    apart, those an export pass paints, with the same arguments, in the same
    order and in the same style; and both passes leave the same [error]
    state. Only the transform and the two rectangles in box coordinates
    (white background, tint) differ. *)
Theorem X3_preview_matches_export (env : Env) (canvas canvas' : Canvas)
    (groups : list BarcodeGroup) (error : option string) :
  pageContent (painted (fst (drawOnCanvas env canvas groups true error)))
  = pageContent (painted (fst (drawOnCanvas env canvas' groups false error)))
  /\ snd (drawOnCanvas env canvas groups true error)
     = snd (drawOnCanvas env canvas' groups false error).
Proof.
  split.
  - rewrite !drawOnCanvas_pageContent.
    destruct (filter isValidGroup groups) as [|g vg]; [reflexivity|].
    destruct (drawGroups_paints env (g :: vg) 0
                (contentStart env true canvas) (contentStart env false canvas'))
      as [l [l' [H [H' [Hu Hf]]]]].
    { unfold sameStyle. repeat split. }
    rewrite H, H', !contentStart_painted. cbn [app skipn].
    assert (Hf' : Forall (fun p => isFillRect p = false) l').
    { clear H H'. revert l' Hu.
      induction Hf as [|p l [Hp _] _ IH]; intros [|p' l'] Hu;
        try discriminate; constructor.
      - cbn [map] in Hu. injection Hu as Hp' _.
        destruct p, p'; try discriminate; reflexivity.
      - cbn [map] in Hu. injection Hu as _ Hu. now apply IH. }
    rewrite !pageContent_no_rect; [exact Hu|exact Hf'|].
    eapply Forall_impl; [|exact Hf]. intros p [Hp _]. exact Hp.
  - rewrite (drawOnCanvas_error env canvas freshCanvas),
            (drawOnCanvas_error env canvas' freshCanvas). reflexivity.
Qed.




(** ** How many images, and where *)

Lemma imageRects_app (l1 l2 : list Painted) :
  imageRects (l1 ++ l2) = (imageRects l1 ++ imageRects l2)%list.
Proof. unfold imageRects. apply flat_map_app. Qed.

Lemma imageRects_gridCells_length st img sx sy cw ch cols rows :
  List.length (imageRects (gridCells st img sx sy cw ch cols rows))
  = (cols * rows)%nat.
Proof.
  rewrite <- (gridCells_length st img sx sy cw ch cols rows).
  assert (H : Forall (fun p => exists a, imageRects [p] = [a])
                (gridCells st img sx sy cw ch cols rows)).
  { apply gridCells_Forall. intros col row. eexists. reflexivity. }
  induction H as [|p l [a Ha] _ IH]; [reflexivity|].
  change (p :: l)%list with ([p] ++ l)%list.
  rewrite imageRects_app, Ha. cbn [app List.length]. now rewrite IH.
Qed.

Lemma imageRects_title (g : BarcodeGroup) (y : Q) (c : Canvas) :
  imageRects (painted (canvasAfterTitle g y c)) = imageRects (painted c).
Proof.
  unfold canvasAfterTitle. destruct (hasTitle g); [|reflexivity].
  cbn [painted]. rewrite imageRects_app. cbn. now rewrite app_nil_r.
Qed.

Lemma drawGroups_count (env : Env) (gs : list BarcodeGroup) :
  forall (y y' : Q) (c c' : Canvas),
    drawGroups env gs y c = (c', inr y') ->
    List.length (imageRects (painted c'))
    = (List.length (imageRects (painted c)) + copies gs)%nat.
Proof.
  induction gs as [|g gs IH]; intros y y' c c' Hrun.
  - cbn in Hrun. injection Hrun as <- _. cbn. lia.
  - cbn [drawGroups] in Hrun. unfold bind in Hrun.
    destruct (drawGroup_cases env g y c) as [[msg [H _]]|[w [h [_ H]]]].
    { rewrite H in Hrun. discriminate. }
    simpl in H. destruct H as [_ [_ [_ H]]]. rewrite (H c) in Hrun.
    rewrite (IH _ _ _ _ Hrun). cbn [appendPainted painted copies fold_right].
    rewrite imageRects_app, length_app, imageRects_title,
      imageRects_gridCells_length.
    fold (copies gs). lia.
Qed.

(** X5. A pass that ends without error has painted every copy of every
    contributing group and nothing else: the number of images it shows is
    the sum, over the contributing groups, of [horizontalCount] times
    [verticalCount]. *)
Theorem X5_all_copies_painted (env : Env) (canvas : Canvas)
    (groups : list BarcodeGroup) (isPreview : bool) (error : option string) :
  snd (drawOnCanvas env canvas groups isPreview error) = None ->
  List.length (imageRects (painted (fst (drawOnCanvas env canvas groups isPreview error))))
  = copies (filter isValidGroup groups).
Proof.
  intro Hok. rewrite drawOnCanvas_run in *.
  destruct (filter isValidGroup groups) as [|g vg].
  { destruct isPreview; reflexivity. }
  destruct (drawGroups env (g :: vg) 0 (contentStart env isPreview canvas))
    as [c2 [m|y]] eqn:E; [discriminate|].
  assert (Hp : painted (if isPreview then fst (ctx_restore c2) else c2)
               = painted c2).
  { destruct isPreview; [|reflexivity].
    unfold ctx_restore, modify. cbn [fst]. destruct (saved c2); reflexivity. }
  cbn [fst]. rewrite Hp, (drawGroups_count env _ _ _ _ _ E).
  now rewrite contentStart_painted.
Qed.

Lemma X5_all_copies_painted_witness :
  let a := mkGroup 1 "1" "https://cdn.example/1.png" valid "A" 5 10 0 in
  let off := mkGroup 2 "2" "" idle "B" 7 7 (1 # 10) in
  let b := mkGroup 3 "3" "https://cdn.example/3.svg" valid "" 3 4 (1 # 10) in
  let env := mkEnv 600 848 1 (fun _ => Some (100%N, 50%N)) in
  List.length (imageRects (painted (fst (drawOnCanvas env freshCanvas [a; off; b] true None))))
  = 62%nat.
Proof.
  intros a off b env.
  apply (X5_all_copies_painted env freshCanvas [a; off; b] true None).
  vm_compute. reflexivity.
Defined.




(** ** Export *)

Lemma existsb_false {A : Type} (f : A -> bool) (l : list A) :
  existsb f l = false <-> forall x, In x l -> f x = false.
Proof.
  induction l as [|a l IH]; cbn [existsb In].
  - split; [intros _ x []|reflexivity].
  - rewrite orb_false_iff, IH. split.
    + intros [Ha Hl] x [<-|Hx]; [exact Ha|now apply Hl].
    + intro H. split; [apply H; now left|]. intros x Hx. apply H. now right.
Qed.

(** Line 267, for one group: it does not block the download. *)
Lemma group_ready_iff (g : BarcodeGroup) :
  negb (ValidationStatus_eqb (validationStatus g) valid)
  || negb (JsString.truthy (resolvedUrl g))
  || (horizontalCount g <=? 0)%Z || (verticalCount g <=? 0)%Z = false
  <-> validationStatus g = valid /\ resolvedUrl g <> ""
      /\ (0 < horizontalCount g)%Z /\ (0 < verticalCount g)%Z.
Proof.
  rewrite !orb_false_iff, !negb_false_iff, !Z.leb_gt, ValidationStatus_eqb_eq.
  destruct (resolvedUrl g); cbn; intuition congruence.
Qed.

(** X10. The download button is enabled exactly when no export is running,
    there is at least one group, and every group is [valid], has a resolved
    URL and has positive repeat counts. *)
Theorem X10_download_enabled_iff (isLoading : bool) (groups : list BarcodeGroup) :
  isDownloadDisabled isLoading groups = false <->
  isLoading = false /\ groups <> []
  /\ forall g, In g groups ->
       validationStatus g = valid /\ resolvedUrl g <> ""
       /\ (0 < horizontalCount g)%Z /\ (0 < verticalCount g)%Z.
Proof.
  unfold isDownloadDisabled. rewrite !orb_false_iff, existsb_false.
  assert (Hlen : (List.length groups =? 0)%nat = false <-> groups <> []).
  { destruct groups; cbn; split; congruence. }
  rewrite Hlen. split.
  - intros [[Hl Hn] He]. split; [exact Hl|]. split; [exact Hn|].
    intros g Hg. apply group_ready_iff. now apply He.
  - intros [Hl [Hn Hall]]. split; [split; assumption|].
    intros g Hg. apply group_ready_iff. now apply Hall.
Qed.

Lemma X10_download_enabled_iff_witness :
  let a := mkGroup 1 "1" "https://cdn.example/1.png" valid "A" 5 10 0 in
  let b := mkGroup 2 "2" "https://cdn.example/2.png" valid "" 3 4 (1 # 10) in
  isDownloadDisabled false [a; b] = false.
Proof.
  intros a b. apply (proj2 (X10_download_enabled_iff false [a; b])).
  split; [reflexivity|]. split; [discriminate|].
  intros g [<-|[<-|[]]]; repeat split; try discriminate.
Defined.

(** X11. When the download button is enabled, the export leaves no group
    out: every group of the list contributes to the render, in the order of
    the list. *)
Theorem X11_enabled_export_renders_every_group (isLoading : bool)
    (groups : list BarcodeGroup) :
  isDownloadDisabled isLoading groups = false ->
  filter isValidGroup groups = groups /\ groups <> [].
Proof.
  unfold isDownloadDisabled. rewrite !orb_false_iff, existsb_false.
  intros [[_ Hn] Hall]. split; [|destruct groups; [discriminate|discriminate]].
  clear Hn. induction groups as [|g gs IH]; [reflexivity|].
  cbn [filter].
  assert (Hg : isValidGroup g = true).
  { apply isValidGroup_true.
    destruct (proj1 (group_ready_iff g) (Hall g (or_introl eq_refl)))
      as [A [B [C D]]].
    repeat split; assumption. }
  rewrite Hg. f_equal. apply IH. intros g' Hg'. apply Hall. now right.
Qed.

Lemma X11_enabled_export_renders_every_group_witness :
  let a := mkGroup 1 "1" "https://cdn.example/1.png" valid "A" 5 10 0 in
  let b := mkGroup 2 "2" "https://cdn.example/2.png" valid "" 3 4 (1 # 10) in
  filter isValidGroup [a; b] = [a; b].
Proof.
  intros a b.
  apply (X11_enabled_export_renders_every_group false [a; b]). reflexivity.
Defined.

(** X12. An export always ends with [isLoading] false, and what it offers
    for download, if anything, is named [barcode-sheet-A4-300dpi.png] and is
    2481 by 3507 pixels. The file is offered whenever the encoder produces a
    blob, also when the render failed: the tinted, partly drawn page is
    downloaded and the error of the render is shown. When the encoder
    produces nothing, nothing is downloaded and the blob message replaces
    whatever the render stored. *)
Theorem X12_export_outcome (env : Env) (blobOk : Canvas -> bool)
    (groups : list BarcodeGroup) :
  let rendered := drawOnCanvas env freshCanvas groups false None in
  let result := exportSheet env blobOk groups in
  isLoadingAfter result = false
  /\ (blobOk (fst rendered) = true ->
      downloaded result = Some ("barcode-sheet-A4-300dpi.png", fst rendered)
      /\ width (fst rendered) = 2481%Z /\ height (fst rendered) = 3507%Z
      /\ errorAfter result = snd rendered
      /\ forall msg, snd rendered = Some msg ->
           filter isValidGroup groups <> [] ->
           exists shown tint,
             painted (fst rendered) = (shown ++ [tint])%list
             /\ coversCanvas (fst rendered) tint = true)
  /\ (blobOk (fst rendered) = false ->
      downloaded result = None
      /\ errorAfter result
         = Some "Failed to create image blob. The canvas may be empty or too large.").
Proof.
  cbv zeta. unfold exportSheet, handleGenerateAndDownload.
  pose proof (drawOnCanvas_export_size env freshCanvas groups None) as [Hw Hh].
  pose proof (export_tint_covers env freshCanvas groups None) as X.
  destruct (drawOnCanvas env freshCanvas groups false None) as [c e].
  cbn [fst snd] in *.
  destruct (blobOk c) eqn:B; cbn.
  - split; [reflexivity|]. split; [|discriminate]. intros _.
    split; [reflexivity|]. split; [exact Hw|]. split; [exact Hh|].
    split; [reflexivity|].
    intros msg Hmsg Hne. now apply (X msg).
  - split; [reflexivity|]. split; [discriminate|]. intros _. split; reflexivity.
Qed.

Lemma X12_export_outcome_witness :
  let a := mkGroup 1 "1" "https://cdn.example/missing.png" valid "" 5 10 0 in
  let env := mkEnv 600 848 1 (fun _ => None) in
  downloaded (exportSheet env (fun _ => true) [a])
    = Some ("barcode-sheet-A4-300dpi.png",
            fst (drawOnCanvas env freshCanvas [a] false None))
  /\ errorAfter (exportSheet env (fun _ => true) [a])
     = Some "Failed to load: https://cdn.example/missing.png..."
  /\ downloaded (exportSheet env (fun _ => false) [a]) = None.
Proof.
  intros a env.
  destruct (X12_export_outcome env (fun _ => true) [a]) as [_ [Hok _]].
  destruct (X12_export_outcome env (fun _ => false) [a]) as [_ [_ Hno]].
  destruct (Hok eq_refl) as [Hd [_ [_ [He _]]]].
  destruct (Hno eq_refl) as [Hn _].
  split; [exact Hd|]. split; [exact He|exact Hn].
Defined.

(** ** Validation *)

(** All the timer does: the groups that await validation, and those that
    share an [id] with one, become [checking]; one resolution per group that
    awaited validation is in flight after the others, in the order of the
    list. *)
Lemma startValidations_run (snapshot : list BarcodeGroup) :
  forall s,
    startValidations snapshot s =
    mkApp (map (markChecking (startedIds snapshot)) (barcodeGroups s))
          (inFlight s ++ map (fun g => (id g, inputValue g))
                             (filter awaitsValidation snapshot)).
Proof.
  induction snapshot as [|g rest IH]; intro s.
  - cbn. rewrite app_nil_r. destruct s as [gs fl]. cbn. f_equal.
    rewrite <- (map_id gs) at 1. apply map_ext. intro x. reflexivity.
  - cbn [startValidations]. unfold startedIds. cbn [filter].
    fold (awaitsValidation g). destruct (awaitsValidation g) eqn:Ha.
    + unfold awaitsValidation in Ha. apply andb_true_iff in Ha.
      destruct Ha as [Ht _]. unfold validateStart. rewrite Ht. cbn [negb].
      rewrite IH. cbn [barcodeGroups inFlight map]. f_equal.
      * rewrite map_map. apply map_ext. intro x.
        unfold markChecking, startedIds. cbn [existsb].
        destruct (id x =? id g)%Z; cbn [orb withValidation id resolvedUrl].
        -- destruct (existsb _ _); reflexivity.
        -- reflexivity.
      * now rewrite <- app_assoc.
    + apply IH.
Qed.


Lemma startedIds_In (snapshot : list BarcodeGroup) (g : BarcodeGroup) :
  In g snapshot -> awaitsValidation g = true ->
  existsb (fun i => (id g =? i)%Z) (startedIds snapshot) = true.
Proof.
  intros Hin Ha. apply existsb_exists. exists (id g). split.
  - unfold startedIds. apply in_map. apply filter_In. now split.
  - apply Z.eqb_refl.
Qed.

(** After the timer has fired, no group awaits validation. *)
Lemma none_awaits_after_timer (groups : list BarcodeGroup) :
  filter awaitsValidation (map (markChecking (startedIds groups)) groups) = [].
Proof.
  assert (H : forall ids l,
             (forall g, In g l -> awaitsValidation g = true ->
                        existsb (fun i => (id g =? i)%Z) ids = true) ->
             filter awaitsValidation (map (markChecking ids) l) = []).
  { intros ids l. induction l as [|g l IH]; intro Hl; [reflexivity|].
    cbn [map filter].
    assert (Hg : awaitsValidation (markChecking ids g) = false).
    { unfold markChecking. destruct (existsb _ ids) eqn:E.
      - unfold awaitsValidation. cbn. apply andb_false_r.
      - destruct (awaitsValidation g) eqn:Ha; [|reflexivity].
        rewrite (Hl g (or_introl eq_refl) Ha) in E. discriminate. }
    rewrite Hg. apply IH. intros g' Hg' Ha. apply Hl; [now right|exact Ha]. }
  apply H. intros g Hg Ha. now apply startedIds_In.
Qed.

(** X16. The validation timer starts at most one resolution per edit:
    firing it a second time, with nothing in between, changes nothing, no
    group and no resolution in flight. *)
Theorem X16_timer_idempotent (net : Network) (s : AppState) :
  step net (step net s ValidationTimer) ValidationTimer
  = step net s ValidationTimer.
Proof.
  cbn [step]. rewrite (startValidations_run (barcodeGroups s) s).
  cbn [barcodeGroups]. rewrite startValidations_run. cbn [barcodeGroups inFlight].
  unfold startedIds at 1. rewrite none_awaits_after_timer.
  cbn [map]. rewrite app_nil_r. f_equal.
  rewrite <- (map_id (map _ (barcodeGroups s))) at 2.
  apply map_ext. intro x. reflexivity.
Qed.



Lemma startsWith_nonempty (s p : string) :
  p <> "" -> JsString.startsWith s p = true -> s <> "".
Proof.
  intros Hp H E. subst s. unfold JsString.startsWith in H.
  destruct p; [congruence|discriminate].
Qed.

(** A resolution that succeeds yields an URL that is not empty and that
    answered the HEAD request with success. *)
Lemma resolveUrl_ok (net : Network) (value url : string) :
  resolveUrl net value = inr url ->
  url <> "" /\ headOk net url = Some true.
Proof.
  unfold resolveUrl.
  destruct (JsString.startsWith value "http://"
            || JsString.startsWith value "https://") eqn:Efull.
  - destruct (headOk net value) as [[|]|] eqn:Eh; try discriminate.
    intro H. injection H as <-. split; [|exact Eh].
    apply orb_true_iff in Efull.
    destruct Efull as [E|E]; eapply startsWith_nonempty; try exact E; discriminate.
  - destruct (lookup net value) as [[e|[u|]]|]; try discriminate.
    destruct (JsString.truthy u) eqn:Eu; [|discriminate].
    destruct (headOk net u) as [[|]|] eqn:Eh; try discriminate.
    intro H. injection H as <-. split; [|exact Eh].
    intro X. subst u. discriminate.
Qed.

Lemma coherent_without_url (g : BarcodeGroup) :
  validationStatus g <> valid -> resolvedUrl g = "" -> coherent g.
Proof. intros Hs Hu. split; [intro X; contradiction|intros _; exact Hu]. Qed.

Lemma coherent_checking (g : BarcodeGroup) :
  validationStatus g = checking -> coherent g.
Proof. intro Hs. split; [|intros [X|X]]; rewrite Hs in *; discriminate. Qed.

Lemma coherent_map (f : BarcodeGroup -> BarcodeGroup) (id0 : Z)
    (prev : list BarcodeGroup) :
  (forall g, coherent g -> coherent (f g)) ->
  Forall coherent prev ->
  Forall coherent (map (fun g => if (id g =? id0)%Z then f g else g) prev).
Proof.
  intros Hf Hprev. rewrite Forall_map.
  eapply Forall_impl; [|exact Hprev]. intros g Hg. cbn beta.
  destruct (id g =? id0)%Z; [now apply Hf|exact Hg].
Qed.

Lemma coherent_updateGroup (g : BarcodeGroup) (e : Edit) :
  coherent g -> coherent (updateGroup g e).
Proof.
  intro H. destruct e; cbn [updateGroup]; try exact H.
  apply coherent_without_url; [discriminate|reflexivity].
Qed.

(** X13. Status and URL never come apart: in every state the component can
    reach (from its initial state, by the user's actions, by the validation
    timer and by resolutions settling in any order, whatever the network
    answers), a [valid] group has a resolved URL that is not empty, and an
    [idle] or [invalid] group has none. *)
Theorem X13_status_and_url_coherent :
  (forall now, Forall coherent (initialGroups now))
  /\ (forall a prev, Forall coherent prev -> Forall coherent (act a prev))
  /\ (forall net s ev,
        Forall coherent (barcodeGroups s) ->
        Forall coherent (barcodeGroups (step net s ev))).
Proof.
  split; [|split].
  - intro now. constructor; [|constructor].
    apply coherent_without_url; [discriminate|reflexivity].
  - intros a prev Hprev.
    destruct a as [i t|i t|i p|i p|i p|now|i]; cbn [act];
      try (apply coherent_map; [intro g; apply coherent_updateGroup|exact Hprev]).
    + unfold handleAddGroup. apply Forall_app. split; [exact Hprev|].
      constructor; [|constructor].
      apply coherent_without_url; [discriminate|reflexivity].
    + unfold handleRemoveGroup. rewrite Forall_forall in *.
      intros g Hg. apply filter_In in Hg. apply Hprev. tauto.
  - intros net s ev Hs. destruct ev as [i e| |k]; cbn [step].
    + cbn [barcodeGroups]. apply coherent_map; [|exact Hs].
      intro g. apply coherent_updateGroup.
    + rewrite startValidations_run. cbn [barcodeGroups]. rewrite Forall_map.
      eapply Forall_impl; [|exact Hs]. intros g Hg. unfold markChecking.
      destruct (existsb _ _); [|exact Hg].
      now apply coherent_checking.
    + destruct (nth_error (inFlight s) k) as [[id0 value]|]; [|exact Hs].
      cbn [barcodeGroups]. rewrite validateFinish_spec.
      apply coherent_map; [|exact Hs]. intros g _.
      destruct (resolveUrl net value) as [m|url] eqn:E.
      * apply coherent_without_url; [discriminate|reflexivity].
      * split; [intros _; apply (resolveUrl_ok net value url E)|].
        intros [X|X]; discriminate.
Qed.

Lemma X13_status_and_url_coherent_witness :
  let net :=
    mkNetwork (fun value => Some (LookupOk (Some ("https://cdn.example/" ++ value))))
              (fun _ => Some true) in
  Forall coherent
    (barcodeGroups
       (step net (mkApp [mkGroup 7 "2" "" checking "" 5 10 0] [(7%Z, "2")])
             (Settles 0))).
Proof.
  intro net.
  apply (proj2 (proj2 X13_status_and_url_coherent) net
           (mkApp [mkGroup 7 "2" "" checking "" 5 10 0] [(7%Z, "2")]) (Settles 0)).
  constructor; [|constructor]. now apply coherent_checking.
Defined.

(** X14. Editing the identifier of an existing group takes it out of the
    page and blocks the export at once: every group with that [id] stops
    contributing to the render, and the download button is disabled,
    whatever the other groups are, until a resolution settles. *)
Theorem X14_identifier_edit_blocks_export (isLoading : bool)
    (groups : list BarcodeGroup) (id0 : Z) (value : string) :
  hasId id0 groups = true ->
  let edited := handleGroupChange id0 (SetInputValue value) groups in
  isDownloadDisabled isLoading edited = true
  /\ forall g, In g edited -> id g = id0 ->
       isValidGroup g = false /\ validationStatus g = idle /\ resolvedUrl g = "".
Proof.
  intros Hid edited.
  assert (Hed : forall g, In g edited -> id g = id0 ->
                  validationStatus g = idle /\ resolvedUrl g = "").
  { intros g Hg Hgid. unfold edited, handleGroupChange in Hg.
    apply in_map_iff in Hg. destruct Hg as [x [Hx _]].
    destruct (Z.eqb_spec (id x) id0) as [E|N]; subst g; [|contradiction].
    split; reflexivity. }
  split.
  - unfold hasId in Hid. apply existsb_exists in Hid.
    destruct Hid as [g0 [Hin0 Hid0]].
    unfold isDownloadDisabled. apply orb_true_iff. right.
    apply existsb_exists. exists (updateGroup g0 (SetInputValue value)). split.
    + unfold edited, handleGroupChange. apply in_map_iff. exists g0.
      rewrite Hid0. now split.
    + reflexivity.
  - intros g Hg Hgid. destruct (Hed g Hg Hgid) as [Hs Hu].
    split; [|split; assumption].
    unfold isValidGroup. now rewrite Hu.
Qed.

Lemma X14_identifier_edit_blocks_export_witness :
  let a := mkGroup 1 "1" "https://cdn.example/1.png" valid "A" 5 10 0 in
  let b := mkGroup 2 "2" "https://cdn.example/2.png" valid "" 3 4 (1 # 10) in
  isDownloadDisabled false [a; b] = false
  /\ isDownloadDisabled false (handleGroupChange 2 (SetInputValue "3") [a; b]) = true.
Proof.
  intros a b. split; [reflexivity|].
  apply (X14_identifier_edit_blocks_export false [a; b] 2 "3"). reflexivity.
Defined.

(** X17. A result that comes in during the debounce window silences the
    validation of the newer identifier. The identifier of a group is set to
    [v1] (not empty), the timer fires, the identifier is set to [v2], and
    the resolution of [v1] settles before the timer fires again: the group
    then carries the identifier [v2] with the status and URL [v1] resolved
    to, no resolution is in flight, and the timer, when it fires, starts
    none and changes nothing: [v2] is not validated. *)
Theorem X17_result_in_debounce_window (net : Network) (g0 : BarcodeGroup)
    (v1 v2 : string) :
  v1 <> "" ->
  let afterSettle :=
    run net (mkApp [g0] [])
      [UserEdit (id g0) (SetInputValue v1); ValidationTimer;
       UserEdit (id g0) (SetInputValue v2); Settles 0] in
  afterSettle
  = mkApp [mkGroup (id g0) v2 (snd (outcomeFields (resolveUrl net v1)))
             (fst (outcomeFields (resolveUrl net v1))) (title g0)
             (horizontalCount g0) (verticalCount g0) (marginTop g0)] []
  /\ step net afterSettle ValidationTimer = afterSettle.
Proof.
  intros H1 afterSettle.
  assert (T1 : JsString.truthy v1 = true) by (destruct v1; [congruence|reflexivity]).
  assert (E : afterSettle
    = mkApp [mkGroup (id g0) v2 (snd (outcomeFields (resolveUrl net v1)))
               (fst (outcomeFields (resolveUrl net v1))) (title g0)
               (horizontalCount g0) (verticalCount g0) (marginTop g0)] []).
  { subst afterSettle. unfold run. cbn [fold_left].
    rewrite (step_edit_single net g0 (SetInputValue v1) []).
    rewrite step_timer_single by (cbn; rewrite ?T1; split; reflexivity).
    cbn [updateGroup withValidation id inputValue resolvedUrl title
         horizontalCount verticalCount marginTop app].
    rewrite (step_edit_single net (mkGroup (id g0) v1 "" checking (title g0)
               (horizontalCount g0) (verticalCount g0) (marginTop g0))
               (SetInputValue v2)).
    cbn [updateGroup id title horizontalCount verticalCount marginTop].
    rewrite (step_settle_single net _ _ 0 v1) by reflexivity.
    reflexivity. }
  split; [exact E|]. rewrite E. cbn [step barcodeGroups startValidations].
  cbn [inputValue validationStatus].
  destruct (resolveUrl net v1); cbn; rewrite andb_false_r; reflexivity.
Qed.

Lemma X17_result_in_debounce_window_witness :
  let net :=
    mkNetwork
      (fun value => Some (LookupOk (Some ("https://cdn.example/" ++ value ++ ".png"))))
      (fun _ => Some true) in
  let g0 := mkGroup 7 "" "" idle "" 5 10 0 in
  run net (mkApp [g0] [])
    [UserEdit 7 (SetInputValue "1"); ValidationTimer;
     UserEdit 7 (SetInputValue "2"); Settles 0; ValidationTimer]
  = mkApp [mkGroup 7 "2" "https://cdn.example/1.png" valid "" 5 10 0] [].
Proof.
  intros net g0.
  destruct (X17_result_in_debounce_window net g0 "1" "2") as [E T].
  - discriminate.
  - change (run net (mkApp [g0] [])
              [UserEdit 7 (SetInputValue "1"); ValidationTimer;
               UserEdit 7 (SetInputValue "2"); Settles 0; ValidationTimer])
      with (step net (run net (mkApp [g0] [])
              [UserEdit (id g0) (SetInputValue "1"); ValidationTimer;
               UserEdit (id g0) (SetInputValue "2"); Settles 0]) ValidationTimer).
    rewrite T. exact E.
Defined.

(** ** Editing the list *)

(** X18. Removing cancels adding: when no group has the [id] a new group is
    given, removing the group with that [id] right after adding it gives
    the list back; and a removal leaves no group with the removed [id]. *)
Theorem X18_remove_after_add (now : Z) (prev : list BarcodeGroup) :
  hasId now prev = false ->
  handleRemoveGroup now (handleAddGroup now prev) = prev
  /\ hasId now (handleAddGroup now prev) = true
  /\ forall idToRemove,
       hasId idToRemove (handleRemoveGroup idToRemove prev) = false.
Proof.
  intro Hfresh. unfold hasId in *. rewrite existsb_false in Hfresh.
  split; [|split].
  - unfold handleRemoveGroup, handleAddGroup. rewrite filter_app.
    cbn. rewrite Z.eqb_refl. cbn. rewrite app_nil_r.
    induction prev as [|g gs IH]; [reflexivity|].
    cbn [filter]. rewrite (Hfresh g (or_introl eq_refl)). cbn [negb].
    f_equal. apply IH. intros x Hx. apply Hfresh. now right.
  - unfold handleAddGroup. rewrite existsb_app. cbn.
    rewrite Z.eqb_refl. now rewrite orb_true_r.
  - intro i.
    apply existsb_false. intros x Hx. unfold handleRemoveGroup in Hx.
    apply filter_In in Hx. destruct Hx as [_ Hx].
    now apply negb_true_iff in Hx.
Qed.

Lemma X18_remove_after_add_witness :
  let a := mkGroup 1 "1" "https://cdn.example/1.png" valid "A" 5 10 0 in
  handleRemoveGroup 2 (handleAddGroup 2 [a]) = [a].
Proof.
  intro a. apply (X18_remove_after_add 2 [a]). reflexivity.
Defined.

(** X19. An edit touches the groups with the given [id] and nothing else:
    it keeps the number, the order and the [id]s of the groups; it is the
    identity when no group has that [id]; and edits of groups with
    different [id]s can be made in either order. *)
Theorem X19_edits_are_local :
  (forall id0 e prev,
     map id (handleGroupChange id0 e prev) = map id prev)
  /\ (forall id0 e prev,
        hasId id0 prev = false -> handleGroupChange id0 e prev = prev)
  /\ (forall id1 id2 e1 e2 prev,
        id1 <> id2 ->
        handleGroupChange id1 e1 (handleGroupChange id2 e2 prev)
        = handleGroupChange id2 e2 (handleGroupChange id1 e1 prev)).
Proof.
  assert (Hid : forall g e, id (updateGroup g e) = id g).
  { intros g e. destruct e; reflexivity. }
  split; [|split].
  - intros id0 e prev. unfold handleGroupChange. rewrite map_map.
    apply map_ext. intro g. destruct (id g =? id0)%Z; [apply Hid|reflexivity].
  - intros id0 e prev Hno. unfold hasId in Hno. rewrite existsb_false in Hno.
    unfold handleGroupChange. rewrite <- (map_id prev) at 2.
    apply map_ext_in. intros g Hg. now rewrite (Hno g Hg).
  - intros id1 id2 e1 e2 prev Hne. unfold handleGroupChange.
    rewrite !map_map. apply map_ext. intro g.
    destruct (Z.eqb_spec (id g) id2) as [E2|N2];
      destruct (Z.eqb_spec (id g) id1) as [E1|N1]; try congruence.
    + rewrite Hid. destruct (Z.eqb_spec (id g) id1); [congruence|].
      destruct (Z.eqb_spec (id g) id2); [reflexivity|congruence].
    + rewrite Hid. destruct (Z.eqb_spec (id g) id2); [congruence|].
      destruct (Z.eqb_spec (id g) id1); [reflexivity|congruence].
    + destruct (Z.eqb_spec (id g) id1); [congruence|].
      destruct (Z.eqb_spec (id g) id2); [congruence|reflexivity].
Qed.

Lemma X19_edits_are_local_witness :
  let a := mkGroup 1 "1" "https://cdn.example/1.png" valid "A" 5 10 0 in
  let b := mkGroup 2 "2" "" idle "" 3 4 (1 # 10) in
  handleGroupChange 9 (SetTitle "x") [a; b] = [a; b]
  /\ handleGroupChange 1 (SetTitle "x") (handleGroupChange 2 (SetInputValue "3") [a; b])
     = handleGroupChange 2 (SetInputValue "3") (handleGroupChange 1 (SetTitle "x") [a; b]).
Proof.
  intros a b. destruct X19_edits_are_local as [_ [Habsent Hcomm]]. split.
  - apply Habsent. reflexivity.
  - apply Hcomm. discriminate.
Defined.

(** X23. Number fields cannot break the data model: whatever text is typed
    into a count or margin field, the stored count or margin is not
    negative; and a count field whose text parses to nothing ([NaN]), to 0
    or to a negative number stores 0, which takes every group with that
    [id] out of the page and disables the download. *)
Theorem X23_number_fields :
  (forall a prev,
     Forall (fun g => (0 <= horizontalCount g)%Z /\ (0 <= verticalCount g)%Z
                      /\ 0 <= marginTop g) prev ->
     Forall (fun g => (0 <= horizontalCount g)%Z /\ (0 <= verticalCount g)%Z
                      /\ 0 <= marginTop g) (act a prev))
  /\ (forall isLoading id0 parsed prev,
        hasId id0 prev = true ->
        match parsed with Some n => (n <= 0)%Z | None => True end ->
        isDownloadDisabled isLoading (act (TypeHorizontalCount id0 parsed) prev) = true
        /\ isDownloadDisabled isLoading (act (TypeVerticalCount id0 parsed) prev) = true
        /\ forall g, In g (act (TypeHorizontalCount id0 parsed) prev) ->
             id g = id0 -> horizontalCount g = 0%Z /\ isValidGroup g = false).
Proof.
  split.
  - intros a prev Hprev.
    assert (Hmap : forall (f : BarcodeGroup -> BarcodeGroup) id0,
      (forall g, (0 <= horizontalCount g)%Z /\ (0 <= verticalCount g)%Z
                 /\ 0 <= marginTop g ->
                 (0 <= horizontalCount (f g))%Z /\ (0 <= verticalCount (f g))%Z
                 /\ 0 <= marginTop (f g)) ->
      Forall (fun g => (0 <= horizontalCount g)%Z /\ (0 <= verticalCount g)%Z
                       /\ 0 <= marginTop g)
        (map (fun g => if (id g =? id0)%Z then f g else g) prev)).
    { intros f id0 Hf. rewrite Forall_map.
      eapply Forall_impl; [|exact Hprev]. intros g Hg. cbn beta.
      destruct (id g =? id0)%Z; [now apply Hf|exact Hg]. }
    destruct a as [i t|i t|i p|i p|i p|now|i]; cbn [act]; unfold handleGroupChange.
    + apply Hmap. intros g Hg. exact Hg.
    + apply Hmap. intros g Hg. exact Hg.
    + apply Hmap. intros g [A [B _]]. cbn. repeat split; try assumption.
      apply Q.le_max_l.
    + apply Hmap. intros g [_ [B C]]. cbn. repeat split; try assumption. lia.
    + apply Hmap. intros g [A [_ C]]. cbn. repeat split; try assumption. lia.
    + unfold handleAddGroup. apply Forall_app. split; [exact Hprev|].
      constructor; [|constructor]. cbn. repeat split; try lia.
      unfold Qle; cbn; lia.
    + unfold handleRemoveGroup. rewrite Forall_forall in *.
      intros g Hg. apply filter_In in Hg. apply Hprev. tauto.
  - intros isLoading id0 parsed prev Hid Hparsed.
    assert (Hzero : Z.max 0 (match parsed with Some n => n | None => 0%Z end) = 0%Z).
    { destruct parsed; lia. }
    unfold hasId in Hid. apply existsb_exists in Hid.
    destruct Hid as [g0 [Hin0 Hid0]].
    cbn [act]. rewrite Hzero. unfold isDownloadDisabled, handleGroupChange.
    split; [|split].
    + apply orb_true_iff. right. apply existsb_exists.
      exists (updateGroup g0 (SetHorizontalCount 0)). split.
      * apply in_map_iff. exists g0. rewrite Hid0. now split.
      * cbn. rewrite orb_true_r. reflexivity.
    + apply orb_true_iff. right. apply existsb_exists.
      exists (updateGroup g0 (SetVerticalCount 0)). split.
      * apply in_map_iff. exists g0. rewrite Hid0. now split.
      * cbn. now rewrite orb_true_r.
    + intros g Hg Hgid. apply in_map_iff in Hg. destruct Hg as [x [Hx _]].
      destruct (Z.eqb_spec (id x) id0) as [E|N]; subst g; [|contradiction].
      split; [reflexivity|]. unfold isValidGroup. cbn.
      rewrite andb_false_r. reflexivity.
Qed.

Lemma X23_number_fields_witness :
  let a := mkGroup 1 "1" "https://cdn.example/1.png" valid "A" 5 10 0 in
  Forall (fun g => (0 <= horizontalCount g)%Z /\ (0 <= verticalCount g)%Z
                   /\ 0 <= marginTop g) (act (TypeMarginTop 1 (Some (-3))) [a])
  /\ isDownloadDisabled false (act (TypeHorizontalCount 1 None) [a]) = true.
Proof.
  intro a. destruct X23_number_fields as [Hinv Hzero]. split.
  - apply Hinv. constructor; [|constructor]. cbn. repeat split; try lia.
    unfold Qle; cbn; lia.
  - apply (Hzero false 1%Z None [a]); [reflexivity|exact I].
Defined.

(** ** Resolution *)

(** X20. An identifier that is itself an URL ([http://] or [https://]) is
    resolved without the lookup service: the outcome is the same whatever
    the service would answer, and the group becomes [valid], with the
    identifier itself as resolved URL, exactly when the HEAD request on it
    succeeds. And whatever the identifier, a resolution succeeds only with
    an URL that is not empty and that answered the HEAD request with
    success. *)
Theorem X20_direct_url (lookup1 lookup2 : string -> option LookupResponse)
    (head : string -> option bool) (value : string) :
  (JsString.startsWith value "http://" = true
   \/ JsString.startsWith value "https://" = true ->
   resolveUrl (mkNetwork lookup1 head) value
   = resolveUrl (mkNetwork lookup2 head) value
   /\ (forall url, resolveUrl (mkNetwork lookup1 head) value = inr url <->
                   url = value /\ head value = Some true))
  /\ (forall url, resolveUrl (mkNetwork lookup1 head) value = inr url ->
                  url <> "" /\ head url = Some true).
Proof.
  split.
  - intro Hfull.
    assert (E : JsString.startsWith value "http://"
                || JsString.startsWith value "https://" = true).
    { apply orb_true_iff. exact Hfull. }
    unfold resolveUrl. rewrite E. cbn [headOk]. split; [reflexivity|].
    intro url. destruct (head value) as [[|]|]; split.
    + intro H. injection H as <-. now split.
    + intros [-> _]. reflexivity.
    + discriminate.
    + intros [_ X]. discriminate.
    + discriminate.
    + intros [_ X]. discriminate.
  - intros url H. apply (resolveUrl_ok _ _ _ H).
Qed.

Lemma X20_direct_url_witness :
  let head := fun url => if String.eqb url "https://cdn.example/1.png"
                         then Some true else Some false in
  resolveUrl (mkNetwork (fun _ => None) head) "https://cdn.example/1.png"
  = resolveUrl (mkNetwork (fun _ => Some (LookupOk (Some "x"))) head)
      "https://cdn.example/1.png".
Proof.
  intro head.
  destruct (proj1 (X20_direct_url (fun _ => None)
                     (fun _ => Some (LookupOk (Some "x")))
                     head "https://cdn.example/1.png")) as [H _].
  - right. reflexivity.
  - exact H.
Defined.

(** ** The lookup endpoint *)




